(** * turmac: a Turing machine emulator (turmac.py), shallow embedding

    The Python classes [Square], [Tape], [Behavior], [State], [Program],
    [Move], [Machine] and [Operator] are embedded one module per class.

    - Python integers are unbounded: head positions and state indices are [Z].
    - [Square] objects are mutable and are held by reference in the list of
      a [Tape]; they live in a store ([heap]) and a tape is a list of
      locations, so that two cells holding the same [Square] stay aliased.
    - Methods of [Machine] mutate [self] and may raise: they are written in
      a state-and-exception monad in which the state survives a raise, as
      the attributes of a Python object do. *)

From Stdlib Require Import ZArith Lia.
From stdpp Require Import base list strings pretty.

Local Open Scope Z_scope.

(** ** Exceptions and results *)

Inductive exn : Type :=
  | IndexError
  | AttributeError
  | ValueError
  | StopIteration.

Inductive result (A : Type) : Type :=
  | Ok (a : A)
  | Raise (e : exn).
Arguments Ok {A} a.
Arguments Raise {A} e.

(** ** Python list subscript

    [l[i]]: a negative index counts from the end; what is still out of
    range after that adjustment raises [IndexError]. *)

Definition list_getitem {A : Type} (l : list A) (i : Z) : result A :=
  let n := Z.of_nat (length l) in
  let j := if i <? 0 then i + n else i in
  if (j <? 0) || (n <=? j) then Raise IndexError
  else match l !! Z.to_nat j with
       | Some a => Ok a
       | None => Raise IndexError
       end.

(** ** The store of Square objects *)

Abbreviation loc := nat (only parsing).

(** [heap !! s] is the [symbol] attribute of the Square object [s]. *)
Abbreviation heap := (list bool) (only parsing).

Module Square.

(** [Square(symbol)]: a new object. *)
Definition init (symbol : bool) (h : heap) : loc * heap :=
  (length h, h ++ [symbol]).

(** [self.symbol]. Every location held by a tape was returned by [init],
    so it is inside the store; [false] stands for a location that is not,
    which no run produces. *)
Definition symbol (h : heap) (self : loc) : bool :=
  default false (h !! self).

(** [self.symbol = v] *)
Definition set_symbol (h : heap) (self : loc) (v : bool) : heap :=
  <[self := v]> h.

(** [Square.from_pattern(pattern)] *)
Definition from_pattern (pattern : string) (h : heap) : result loc * heap :=
  if negb (String.eqb pattern "o" || String.eqb pattern "x")
  then (Raise ValueError, h)
  else match String.get 0 pattern with
       | Some c =>
         let '(s, h') := init (String.eqb (String c EmptyString) "x") h in
         (Ok s, h')
       | None => (Raise IndexError, h)
       end.

(** [bool(self)] *)
Definition to_bool (h : heap) (self : loc) : bool := symbol h self.

End Square.

Module Tape.

Record t : Type := mk { squares : list loc }.

(** [Tape(squares)] *)
Definition init (squares : list loc) : t := mk squares.

(** The default argument [[Square()]] of [Tape.__init__], as it is when
    the class is defined, in a store that holds nothing else. Python
    builds this list once: every Tape made without an argument holds the
    same list, and sees what a machine has done to it since. *)
Definition default_squares : list loc * heap :=
  let '(s, h) := Square.init false [] in ([s], h).

(** [[Square.from_pattern(c) for c in pattern]] *)
Fixpoint squares_from_pattern (pattern : string) (h : heap)
  : result (list loc) * heap :=
  match pattern with
  | EmptyString => (Ok [], h)
  | String c rest =>
      match Square.from_pattern (String c EmptyString) h with
      | (Ok s, h1) =>
          match squares_from_pattern rest h1 with
          | (Ok l, h2) => (Ok (s :: l), h2)
          | (Raise e, h2) => (Raise e, h2)
          end
      | (Raise e, h1) => (Raise e, h1)
      end
  end.

(** [Tape.from_pattern(pattern)] *)
Definition from_pattern (pattern : string) (h : heap) : result t * heap :=
  match squares_from_pattern pattern h with
  | (Ok l, h') => (Ok (init l), h')
  | (Raise e, h') => (Raise e, h')
  end.

(** [self[i]] *)
Definition getitem (self : t) (i : Z) : result loc :=
  list_getitem (squares self) i.

(** [len(self)] *)
Definition len (self : t) : Z := Z.of_nat (length (squares self)).

(** [self.feed_left()]: [self.squares.insert(0, Square())] *)
Definition feed_left (self : t) (h : heap) : t * heap :=
  let '(s, h') := Square.init false h in (mk (s :: squares self), h').

(** [self.feed_right()]: [self.squares.append(Square())] *)
Definition feed_right (self : t) (h : heap) : t * heap :=
  let '(s, h') := Square.init false h in (mk (squares self ++ [s]), h').

(** [[bool(s) for s in self]] *)
Definition symbols (self : t) (h : heap) : list bool :=
  map (Square.to_bool h) (squares self).

End Tape.

Module Behavior.

Record t : Type := mk { symbol : bool; goes_right : bool; state_i : Z }.

End Behavior.

Module State.

Record t : Type := mk { when_false : Behavior.t; when_true : Behavior.t }.

(** [self[p]] *)
Definition getitem (self : t) (p : bool) : Behavior.t :=
  if Bool.eqb p false then when_false self else when_true self.

End State.

Module Program.

Record t : Type := mk { states : list State.t }.

(** [self[i]]: 1-based *)
Definition getitem (self : t) (i : Z) : result State.t :=
  if i <? 1 then Raise IndexError
  else list_getitem (states self) (i - 1).

End Program.

Module Move.

Record t : Type := mk {
  symbols : list bool;
  from_square_i : Z;
  to_square_i : Z;
  from_state_i : Z;
  to_state_i : Z
}.

(** [Move(symbols, from_square_i, to_square_i, from_state_i, to_state_i)].
    The constructor assigns [self.from_state_i = from_square_i]. *)
Definition init (symbols : list bool)
    (from_square_i to_square_i from_state_i to_state_i : Z) : t :=
  {| symbols := symbols;
     from_square_i := from_square_i;
     to_square_i := to_square_i;
     from_state_i := from_square_i;
     to_state_i := to_state_i |}.

End Move.

Module Machine.

(** [configuration] is [None] while the attribute does not exist. *)
Record t : Type := mk {
  heap_of : heap;
  tape : Tape.t;
  program : Program.t;
  square_i : Z;
  state_i : Z;
  configuration : option Behavior.t
}.

(** [Machine(tape, program)] *)
Definition init (h : heap) (tape : Tape.t) (program : Program.t) : t :=
  {| heap_of := h; tape := tape; program := program;
     square_i := 0; state_i := 1; configuration := None |}.

(** *** Methods: state and exception *)

Definition M (A : Type) : Type := t -> result A * t.

Definition ret {A} (a : A) : M A := fun self => (Ok a, self).

Definition bind {A B} (c : M A) (k : A -> M B) : M B :=
  fun self =>
    match c self with
    | (Ok a, self') => k a self'
    | (Raise e, self') => (Raise e, self')
    end.

Definition raise {A} (e : exn) : M A := fun self => (Raise e, self).

Definition lift {A} (r : result A) : M A := fun self => (r, self).

Definition get : M t := fun self => (Ok self, self).

Definition set_heap (h : heap) : M unit := fun self =>
  (Ok tt, mk h (tape self) (program self) (square_i self) (state_i self)
             (configuration self)).

Definition set_tape (tp : Tape.t) : M unit := fun self =>
  (Ok tt, mk (heap_of self) tp (program self) (square_i self) (state_i self)
             (configuration self)).

Definition set_square_i (i : Z) : M unit := fun self =>
  (Ok tt, mk (heap_of self) (tape self) (program self) i (state_i self)
             (configuration self)).

Definition set_state_i (i : Z) : M unit := fun self =>
  (Ok tt, mk (heap_of self) (tape self) (program self) (square_i self) i
             (configuration self)).

Definition set_configuration (c : option Behavior.t) : M unit := fun self =>
  (Ok tt, mk (heap_of self) (tape self) (program self) (square_i self)
             (state_i self) c).

(** [self.configuration]: [AttributeError] while it does not exist. *)
Definition get_configuration : M Behavior.t := fun self =>
  match configuration self with
  | Some c => (Ok c, self)
  | None => (Raise AttributeError, self)
  end.

#[global] Instance M_ret : MRet M := @ret.
#[global] Instance M_bind : MBind M := fun A B k c => bind c k.

(** [self.scan()] *)
Definition scan : M unit :=
  self ← get;
  sq ← lift (Tape.getitem (tape self) (square_i self));
  let scanned_symbol := Square.symbol (heap_of self) sq in
  st ← lift (Program.getitem (program self) (state_i self));
  set_configuration (Some (State.getitem st scanned_symbol)).

(** [self.stamp()]: the right-hand side is evaluated first. *)
Definition stamp : M unit :=
  c ← get_configuration;
  self ← get;
  sq ← lift (Tape.getitem (tape self) (square_i self));
  set_heap (Square.set_symbol (heap_of self) sq (Behavior.symbol c)).

(** [self.tape.feed_left()] and [self.tape.feed_right()] *)
Definition feed_left : M unit :=
  self ← get;
  let '(tp, h) := Tape.feed_left (tape self) (heap_of self) in
  set_heap h ;; set_tape tp.

Definition feed_right : M unit :=
  self ← get;
  let '(tp, h) := Tape.feed_right (tape self) (heap_of self) in
  set_heap h ;; set_tape tp.

(** [self.change_square()] *)
Definition change_square : M unit :=
  c ← get_configuration;
  let goes_right := Behavior.goes_right c in
  let goes_left := negb goes_right in
  self ← get;
  let last_i := Tape.len (tape self) - 1 in
  if goes_left && (square_i self =? 0) then
    feed_left
  else if goes_left then
    set_square_i (square_i self - 1)
  else if goes_right && (square_i self =? last_i) then
    (feed_right;;
     self ← get;
     set_square_i (square_i self + 1))
  else
    set_square_i (square_i self + 1).

(** [self.change_state()] *)
Definition change_state : M unit :=
  c ← get_configuration;
  set_state_i (Behavior.state_i c).

(** [self.__next__()] *)
Definition next : M Move.t :=
  self ← get;
  if state_i self =? 0 then raise StopIteration
  else
    scan;;
    stamp;;
    self ← get;
    let from_square_i := square_i self in
    let from_state_i := state_i self in
    change_square;;
    change_state;;
    self ← get;
    let to_square_i := square_i self in
    let to_state_i := state_i self in
    ret (Move.init (Tape.symbols (tape self) (heap_of self))
                   from_square_i to_square_i from_state_i to_state_i).

(** [self.rewind()] *)
Definition rewind : M unit :=
  set_square_i 0;;
  set_state_i 1;;
  self ← get;
  match configuration self with
  | Some _ => set_configuration None
  | None => ret tt
  end.

(** [Machine.from_patterns(tape_pattern, program_patterns)], for a
    program that is already built; the squares of the tape are new. *)
Definition from_patterns (tape_pattern : string) (program : Program.t)
  : result t :=
  match Tape.from_pattern tape_pattern [] with
  | (Ok tp, h) => Ok (init h tp program)
  | (Raise e, _) => Raise e
  end.

(** *** Iteration

    [for move in self] and [list(self)] call [__next__] until it raises.
    [StopIteration] ends the loop normally, any other exception leaves
    it. The loop has no bound in the source; [fuel] is the number of
    calls of [__next__] that are followed. *)

Inductive ending : Type :=
  | Exhausted
  | Raised (e : exn)
  | OutOfFuel.

Fixpoint iterate (fuel : nat) (self : t) : list Move.t * ending * t :=
  match fuel with
  | O => ([], OutOfFuel, self)
  | S fuel' =>
      match next self with
      | (Ok move, self') =>
          let '(moves, e, self'') := iterate fuel' self' in
          (move :: moves, e, self'')
      | (Raise StopIteration, self') => ([], Exhausted, self')
      | (Raise e, self') => ([], Raised e, self')
      end
  end.

(** [self.run()] *)
Definition run (fuel : nat) (self : t) : option (result unit * t) :=
  match iterate fuel self with
  | (_, Exhausted, self') => Some (Ok tt, self')
  | (_, Raised e, self') => Some (Raise e, self')
  | (_, OutOfFuel, _) => None
  end.

End Machine.

Module Operator.

Record t : Type := mk { machine : Machine.t; moves : list Move.t }.

(** [Operator(machine)] *)
Definition init (machine : Machine.t) : t := mk machine [].

(** [self.operate()]: [self.moves = list(self.machine)] *)
Definition operate (fuel : nat) (self : t) : option (result unit * t) :=
  match Machine.iterate fuel (machine self) with
  | (moves', Machine.Exhausted, m') => Some (Ok tt, mk m' moves')
  | (_, Machine.Raised e, m') => Some (Raise e, mk m' (moves self))
  | (_, Machine.OutOfFuel, _) => None
  end.

End Operator.

(** ** Examples from the repository *)

Definition B (pattern_symbol : bool) (goes_right : bool) (state_i : Z)
  : Behavior.t := Behavior.mk pattern_symbol goes_right state_i.

(** [['oR0,oR2', 'xL3,xR2', 'oR4,xL3', 'oR0,oR0']] of examples.py *)
Definition adder_program : Program.t :=
  Program.mk
    [ State.mk (B false true 0) (B false true 2);
      State.mk (B true false 3) (B true true 2);
      State.mk (B false true 4) (B true false 3);
      State.mk (B false true 0) (B false true 0) ].

(** ** One call of [__next__], in one piece

    [step_with sq b self] is the machine after a step that scanned the
    square [sq] and looked up the behavior [b]; [next_eq] below shows that
    this is what the sequence scan, stamp, change_square, change_state of
    [Machine.next] computes. *)

Definition step_with (sq : loc) (b : Behavior.t) (self : Machine.t)
  : Machine.t :=
  let h1 := Square.set_symbol (Machine.heap_of self) sq (Behavior.symbol b) in
  let sqs := Tape.squares (Machine.tape self) in
  let i := Machine.square_i self in
  let mk' h l j :=
    Machine.mk h (Tape.mk l) (Machine.program self) j (Behavior.state_i b)
               (Some b) in
  if Behavior.goes_right b then
    if i =? Tape.len (Machine.tape self) - 1
    then mk' (h1 ++ [false]) (sqs ++ [length h1]) (i + 1)
    else mk' h1 sqs (i + 1)
  else
    if i =? 0
    then mk' (h1 ++ [false]) (length h1 :: sqs) i
    else mk' h1 sqs (i - 1).

(** The behavior that [scan] stores for the step about to be taken. *)
Definition looked_up (self : Machine.t) : option Behavior.t :=
  match Machine.scan self with
  | (Ok _, self') => Machine.configuration self'
  | (Raise _, _) => None
  end.

(** The machine after [n] calls of [__next__] that all returned a Move. *)
Definition after (n : nat) (self : Machine.t) : option Machine.t :=
  match Machine.iterate n self with
  | (_, Machine.OutOfFuel, self') => Some self'
  | _ => None
  end.

(** The head is a valid index of the tape. *)
Definition head_in_range (self : Machine.t) : bool :=
  (0 <=? Machine.square_i self)
  && (Machine.square_i self <? Tape.len (Machine.tape self)).

(** ** Patterns of symbols

    ['x' if symbol == True else 'o'], as [Move.to_table_row] and the
    [add_x] of examples.py write a symbol, and the pattern of a list of
    symbols. *)
Definition mark (symbol : bool) : string :=
  if Bool.eqb symbol true then "x" else "o".

Definition marks (symbols : list bool) : string :=
  String.concat "" (map mark symbols).

(** Every character of the pattern is one that [Square.from_pattern]
    accepts. *)
Fixpoint only_marks (pattern : string) : bool :=
  match pattern with
  | EmptyString => true
  | String c rest =>
      (String.eqb (String c EmptyString) "o"
       || String.eqb (String c EmptyString) "x")
      && only_marks rest
  end.

(** The symbols a pattern of marks stands for. *)
Fixpoint symbols_of (pattern : string) : list bool :=
  match pattern with
  | EmptyString => []
  | String c rest => String.eqb (String c EmptyString) "x" :: symbols_of rest
  end.

(** ** Rendering a Move

    [row[i] = v] on a Python list: a negative index counts from the end,
    an index out of range raises IndexError. *)
Definition list_setitem {A : Type} (l : list A) (i : Z) (v : A)
  : result (list A) :=
  let n := Z.of_nat (length l) in
  let j := if i <? 0 then i + n else i in
  if (j <? 0) || (n <=? j) then Raise IndexError
  else Ok (<[Z.to_nat j := v]> l).

(** The characters of a row. A character is written as the string of its
    UTF-8 bytes; the box-drawing ones are U+2502, U+251C and U+2524. *)
Definition sep (is_fancy : bool) : string :=
  if is_fancy then "│" else "|".

Definition pointer_left (is_fancy : bool) : string :=
  if is_fancy then "├" else ">".

Definition pointer_right (is_fancy : bool) : string :=
  if is_fancy then "┤" else sep is_fancy.

(** The list [row] of [Move.to_table_row] after its [for] loop. *)
Definition row_cells (is_fancy : bool) (symbols : list bool) : list string :=
  fold_left (fun row symbol => (row ++ [mark symbol]) ++ [sep is_fancy])
            symbols [sep is_fancy].

(** [self.to_table_row(show_pointer, is_fancy)] *)
Definition to_table_row (self : Move.t) (show_pointer is_fancy : bool)
  : result string :=
  let pointer_start := Move.from_square_i self * 2 in
  let pointer_end := Move.from_square_i self * 2 + 2 in
  let row := row_cells is_fancy (Move.symbols self) in
  if show_pointer then
    match list_setitem row pointer_start (pointer_left is_fancy) with
    | Raise e => Raise e
    | Ok row1 =>
        match list_setitem row1 pointer_end (pointer_right is_fancy) with
        | Raise e => Raise e
        | Ok row2 => Ok (String.concat "" row2)
        end
    end
  else Ok (String.concat "" row).

(** ** Squares of a tape

    The cells of the tape hold pairwise distinct squares, all of them in
    the store: no two cells are the same Square object. *)
Definition own_squares (self : Machine.t) : bool :=
  bool_decide (NoDup (Tape.squares (Machine.tape self)))
  && forallb (fun s => (s <? length (Machine.heap_of self))%nat)
             (Tape.squares (Machine.tape self)).

(** The snapshot after a step that wrote [v] at cell [i] of the snapshot
    [l] and then moved as [goes_right] says. *)
Definition written_and_fed (l : list bool) (i : Z) (v goes_right : bool)
  : list bool :=
  let l' := <[Z.to_nat i := v]> l in
  if goes_right
  then if i =? Z.of_nat (length l) - 1 then l' ++ [false] else l'
  else if i =? 0 then false :: l' else l'.

(** ** Well-formed tables

    Every Behavior of the program goes to state 0 or to a state the
    program has, and so does the current state index of the machine. *)
Definition goes_to_a_state (p : Program.t) (b : Behavior.t) : bool :=
  (0 <=? Behavior.state_i b)
  && (Behavior.state_i b <=? Z.of_nat (length (Program.states p))).

Definition well_formed (p : Program.t) : bool :=
  forallb (fun st => goes_to_a_state p (State.when_false st)
                     && goes_to_a_state p (State.when_true st))
          (Program.states p).

Definition state_in_table (self : Machine.t) : bool :=
  (0 <=? Machine.state_i self)
  && (Machine.state_i self
      <=? Z.of_nat (length (Program.states (Machine.program self)))).

(** The three conditions that keep [__next__] from raising IndexError. *)
Definition runs_safely (self : Machine.t) : Prop :=
  well_formed (Machine.program self) = true
  /\ state_in_table self = true
  /\ head_in_range self = true.

(** The machine seen from outside: its cells hold distinct squares, it
    runs the program [p], its tape reads [l], its head is on cell [k] and
    its state index is [s]. *)
Definition at_view (p : Program.t) (self : Machine.t) (l : list bool)
    (k : nat) (s : Z) : Prop :=
  own_squares self = true
  /\ Machine.program self = p
  /\ Tape.symbols (Machine.tape self) (Machine.heap_of self) = l
  /\ Machine.square_i self = Z.of_nat k
  /\ Machine.state_i self = s.

(** ** Python strings

    [s.split(sep)] for a separator [sep] of one character; [cur] is the
    piece being read. *)
Fixpoint str_split_go (sep : string) (s cur : string) : list string :=
  match s with
  | EmptyString => [cur]
  | String c s' =>
      if String.eqb (String c EmptyString) sep
      then cur :: str_split_go sep s' EmptyString
      else str_split_go sep s' (cur +:+ String c EmptyString)
  end.

Definition str_split (s sep : string) : list string :=
  str_split_go sep s EmptyString.

(** ** Patterns of Behaviors, States and Programs

    [Behavior.from_pattern], [State.from_pattern] and
    [Program.from_patterns]. [int] stands for Python's [int(str)], which
    returns an integer or raises. Calling the constructor of [State] with
    a number of behaviors other than two raises TypeError, which is no
    exception of the engine. *)
Module Patterns.

Inductive raised : Type :=
  | Engine (e : exn)
  | TypeError.

Inductive outcome (A : Type) : Type :=
  | Returns (a : A)
  | Raises (e : raised).
Arguments Returns {A} a.
Arguments Raises {A} e.

(** [[f(x) for x in l]] where [f] may raise *)
Fixpoint comprehension {A B : Type} (f : A -> outcome B) (l : list A)
  : outcome (list B) :=
  match l with
  | [] => Returns []
  | x :: l' =>
      match f x with
      | Raises e => Raises e
      | Returns y =>
          match comprehension f l' with
          | Raises e => Raises e
          | Returns ys => Returns (y :: ys)
          end
      end
  end.

Section WithInt.

Variable int : string -> result Z.

(** [Behavior.from_pattern(pattern)] *)
Definition Behavior_from_pattern (pattern : string) : outcome Behavior.t :=
  match pattern with
  | String c1 (String c2 rest) =>
      let c1 := String c1 EmptyString in
      let c2 := String c2 EmptyString in
      if negb (String.eqb c1 "o" || String.eqb c1 "x")
      then Raises (Engine ValueError)
      else if negb (String.eqb c2 "L" || String.eqb c2 "R")
      then Raises (Engine ValueError)
      else match int rest with
           | Ok n => Returns (Behavior.mk (String.eqb c1 "x")
                                          (String.eqb c2 "R") n)
           | Raise e => Raises (Engine e)
           end
  | _ => Raises (Engine IndexError)
  end.

(** [State.from_pattern(pattern)] *)
Definition State_from_pattern (pattern : string) : outcome State.t :=
  match comprehension Behavior_from_pattern (str_split pattern ",") with
  | Raises e => Raises e
  | Returns [when_false; when_true] => Returns (State.mk when_false when_true)
  | Returns _ => Raises TypeError
  end.

(** [Program.from_patterns(patterns)] *)
Definition Program_from_patterns (patterns : list string)
  : outcome Program.t :=
  match comprehension State_from_pattern patterns with
  | Raises e => Raises e
  | Returns states => Returns (Program.mk states)
  end.

End WithInt.



End Patterns.

(** [int(s)] on the numerals of one digit, on which it agrees with
    Python; it is used to run the patterns of examples.py. *)
Definition one_digit_int (s : string) : result Z :=
  if String.eqb s "0" then Ok 0
  else if String.eqb s "1" then Ok 1
  else if String.eqb s "2" then Ok 2
  else if String.eqb s "3" then Ok 3
  else if String.eqb s "4" then Ok 4
  else if String.eqb s "5" then Ok 5
  else if String.eqb s "6" then Ok 6
  else if String.eqb s "7" then Ok 7
  else if String.eqb s "8" then Ok 8
  else if String.eqb s "9" then Ok 9
  else Raise ValueError.

(** ** examples.py: the Adder

    [Adder.__init__] builds [Machine(Tape(), Program.from_patterns(...))]
    with the program [adder_program]; [calculate(tape_pattern)] rewinds
    the machine, gives it a new tape built from the pattern and has
    [Operator.admire] run it and print the Moves under the header that
    [add_x] computes from the tape before and after the run. *)
Module Adder.

(** [self.machine] after [Adder()] *)
Definition init : Machine.t :=
  let '(l, h) := Tape.default_squares in
  Machine.init h (Tape.init l) adder_program.

(** The first two statements of [calculate]:
    [self.machine.rewind(); self.machine.tape = Tape.from_pattern(...)].
    The squares of the new tape are new objects of the same store. *)
Definition load (tape_pattern : string) : Machine.M unit :=
  Machine.rewind;;
  self ← Machine.get;
  match Tape.from_pattern tape_pattern (Machine.heap_of self) with
  | (Ok tp, h) => Machine.set_heap h;; Machine.set_tape tp
  | (Raise e, h) => Machine.set_heap h;; Machine.raise e
  end.

(** [add_x(symbols, is_above)]: the numbers written on the tape, a run of
    [n + 1] marks standing for [n]. *)
Definition add_x (symbols : list bool) (is_above : bool) : string :=
  let marks := marks symbols in
  let numbers :=
    String.concat " "
      (map (fun mark => pretty (Z.of_nat (String.length mark) - 1))
           (List.filter (fun mark => 0 <? Z.of_nat (String.length mark))
                        (str_split marks "o"))) in
  numbers.

End Adder.

(** * Properties *)

Ltac unfold_methods :=
  unfold Machine.next, Machine.scan, Machine.stamp, Machine.change_square,
    Machine.change_state, Machine.feed_left, Machine.feed_right,
    Machine.rewind, Machine.get_configuration, Machine.set_configuration,
    Machine.set_heap, Machine.set_tape, Machine.set_square_i,
    Machine.set_state_i, Machine.get, Machine.lift, Machine.raise,
    mbind, mret, Machine.M_bind, Machine.M_ret, Machine.bind, Machine.ret.

Section Step.

Import Machine.

Lemma next_eq (self : Machine.t) :
  next self =
    if state_i self =? 0 then (Raise StopIteration, self)
    else
      match Tape.getitem (tape self) (square_i self) with
      | Raise e => (Raise e, self)
      | Ok sq =>
          match Program.getitem (program self) (state_i self) with
          | Raise e => (Raise e, self)
          | Ok st =>
              let b := State.getitem st (Square.symbol (heap_of self) sq) in
              let self' := step_with sq b self in
              (Ok (Move.init (Tape.symbols (tape self') (heap_of self'))
                             (square_i self) (square_i self')
                             (state_i self) (state_i self')),
               self')
          end
      end.
Proof.
  unfold_methods. destruct self as [h [sqs] p i s c]; cbn.
  destruct (s =? 0); [done|]; cbn.
  destruct (Tape.getitem _ i) as [sq|e] eqn:Hsq; [|done]; cbn.
  destruct (Program.getitem p s) as [st|e]; [|done]; cbn.
  rewrite Hsq; cbn. unfold step_with; cbn.
  set (b := State.getitem st _).
  destruct (Behavior.goes_right b); cbn.
  - destruct (i =? _); reflexivity.
  - destruct (i =? 0) eqn:Hi; cbn; [|reflexivity].
    by apply Z.eqb_eq in Hi as ->.
Qed.

(** [scan] raises exactly when one of its two subscripts does, and then
    it has assigned nothing. *)
Lemma scan_eq (self : Machine.t) :
  scan self =
    match Tape.getitem (tape self) (square_i self) with
    | Raise e => (Raise e, self)
    | Ok sq =>
        match Program.getitem (program self) (state_i self) with
        | Raise e => (Raise e, self)
        | Ok st =>
            (Ok tt,
             mk (heap_of self) (tape self) (program self) (square_i self)
                (state_i self)
                (Some (State.getitem st (Square.symbol (heap_of self) sq))))
        end
    end.
Proof.
  unfold_methods.
  destruct (Tape.getitem _ _); [|done].
  by destruct (Program.getitem _ _).
Qed.

Lemma looked_up_eq (self : Machine.t) :
  looked_up self =
    match Tape.getitem (tape self) (square_i self),
          Program.getitem (program self) (state_i self) with
    | Ok sq, Ok st =>
        Some (State.getitem st (Square.symbol (heap_of self) sq))
    | _, _ => None
    end.
Proof.
  unfold looked_up. rewrite scan_eq.
  destruct (Tape.getitem _ _); [|done].
  by destruct (Program.getitem _ _).
Qed.

(** What a call of [__next__] can do: raise and change nothing, or return
    a Move and leave the machine as [step_with] says. *)
Inductive next_outcome (self : Machine.t) : result Move.t * t -> Prop :=
  | next_stop :
      state_i self = 0 ->
      next_outcome self (Raise StopIteration, self)
  | next_index_error :
      state_i self <> 0 ->
      looked_up self = None ->
      next_outcome self (Raise IndexError, self)
  | next_move sq b :
      state_i self <> 0 ->
      Tape.getitem (tape self) (square_i self) = Ok sq ->
      looked_up self = Some b ->
      let self' := step_with sq b self in
      next_outcome self
        (Ok (Move.init (Tape.symbols (tape self') (heap_of self'))
                       (square_i self) (square_i self')
                       (state_i self) (state_i self')),
         self').

Lemma list_getitem_raises {A} (l : list A) (i : Z) (e : exn) :
  list_getitem l i = Raise e -> e = IndexError.
Proof.
  unfold list_getitem. repeat case_match; congruence.
Qed.

Lemma next_outcome_next (self : Machine.t) : next_outcome self (next self).
Proof.
  rewrite next_eq.
  destruct (state_i self =? 0) eqn:Hs.
  { apply next_stop. lia. }
  assert (state_i self <> 0) as Hs' by lia.
  pose proof (looked_up_eq self) as Hl.
  destruct (Tape.getitem _ _) as [sq|e] eqn:Hsq.
  - destruct (Program.getitem _ _) as [st|e] eqn:Hst.
    + by apply next_move.
    + unfold Program.getitem in Hst.
      assert (e = IndexError) as ->.
      { destruct (_ <? 1); [congruence|].
        by eapply list_getitem_raises. }
      by apply next_index_error.
  - apply list_getitem_raises in Hsq as Hsq'. subst e.
    by apply next_index_error.
Qed.

(** *** The subscript *)

Lemma list_getitem_inside {A} (l : list A) (i : Z) :
  0 <= i < Z.of_nat (length l) ->
  exists a, l !! Z.to_nat i = Some a /\ list_getitem l i = Ok a.
Proof.
  intros Hi. unfold list_getitem.
  destruct (i <? 0) eqn:E1; [lia|].
  destruct ((i <? 0) || (Z.of_nat (length l) <=? i)) eqn:E2; [lia|].
  destruct (l !! Z.to_nat i) as [a|] eqn:Ha; [by exists a|].
  apply lookup_ge_None in Ha. lia.
Qed.

Lemma list_getitem_from_end {A} (l : list A) (i : Z) :
  - Z.of_nat (length l) <= i < 0 ->
  exists a, l !! Z.to_nat (i + Z.of_nat (length l)) = Some a
            /\ list_getitem l i = Ok a.
Proof.
  intros Hi. unfold list_getitem.
  destruct (i <? 0) eqn:E1; [|lia].
  set (j := i + Z.of_nat (length l)).
  destruct ((j <? 0) || (Z.of_nat (length l) <=? j)) eqn:E2; [lia|].
  destruct (l !! Z.to_nat j) as [a|] eqn:Ha; [by exists a|].
  apply lookup_ge_None in Ha. lia.
Qed.

Lemma list_getitem_outside {A} (l : list A) (i : Z) :
  i < - Z.of_nat (length l) \/ Z.of_nat (length l) <= i ->
  list_getitem l i = Raise IndexError.
Proof.
  intros Hi. unfold list_getitem.
  destruct (i <? 0) eqn:E1.
  - destruct ((i + _ <? 0) || _) eqn:E2; [done|lia].
  - destruct ((i <? 0) || _) eqn:E2; [done|lia].
Qed.

(** *** The machine after a step *)

Lemma step_with_program sq b self :
  program (step_with sq b self) = program self.
Proof. unfold step_with. by repeat case_match. Qed.

Lemma step_with_state_i sq b self :
  state_i (step_with sq b self) = Behavior.state_i b.
Proof. unfold step_with. by repeat case_match. Qed.

Lemma step_with_configuration sq b self :
  configuration (step_with sq b self) = Some b.
Proof. unfold step_with. by repeat case_match. Qed.

(** The four branches of [change_square]. *)
Lemma step_with_square_i sq b self :
  square_i (step_with sq b self) =
    if Behavior.goes_right b then square_i self + 1
    else if square_i self =? 0 then 0 else square_i self - 1.
Proof.
  unfold step_with. repeat case_match; cbn; lia.
Qed.

Lemma step_with_len sq b self :
  Tape.len (tape (step_with sq b self)) =
    if Behavior.goes_right b
    then if square_i self =? Tape.len (tape self) - 1
         then Tape.len (tape self) + 1 else Tape.len (tape self)
    else if square_i self =? 0
         then Tape.len (tape self) + 1 else Tape.len (tape self).
Proof.
  unfold step_with, Tape.len.
  repeat case_match; cbn; rewrite ?length_app; cbn; lia.
Qed.

Lemma step_with_head_in_range sq b self :
  head_in_range self = true -> head_in_range (step_with sq b self) = true.
Proof.
  unfold head_in_range.
  rewrite step_with_square_i, step_with_len.
  repeat case_match; lia.
Qed.

Lemma stamp_eq (self : Machine.t) (b : Behavior.t) :
  configuration self = Some b ->
  stamp self =
    match Tape.getitem (tape self) (square_i self) with
    | Ok sq =>
        (Ok tt,
         mk (Square.set_symbol (heap_of self) sq (Behavior.symbol b))
            (tape self) (program self) (square_i self) (state_i self)
            (configuration self))
    | Raise e => (Raise e, self)
    end.
Proof.
  intros Hc. unfold_methods. rewrite Hc. cbn.
  destruct (Tape.getitem _ _); cbn; by rewrite ?Hc.
Qed.

Lemma rewind_eq (self : Machine.t) :
  rewind self =
    (Ok tt, mk (heap_of self) (tape self) (program self) 0 1 None).
Proof.
  unfold_methods. cbn. by destruct (configuration self).
Qed.

(** The fields of an emitted Move, as [Move.init] fills them. *)
Lemma move_fields (self self' : Machine.t) (move : Move.t) :
  next self = (Ok move, self') ->
  Move.symbols move = Tape.symbols (tape self') (heap_of self')
  /\ Move.from_square_i move = square_i self
  /\ Move.to_square_i move = square_i self'
  /\ Move.from_state_i move = square_i self
  /\ Move.to_state_i move = state_i self'.
Proof.
  intros Hn. pose proof (next_outcome_next self) as Ho. rewrite Hn in Ho.
  inversion Ho; subst. by cbn.
Qed.

Lemma squares_from_pattern_length pattern : forall h l h',
  Tape.squares_from_pattern pattern h = (Ok l, h') ->
  length l = String.length pattern.
Proof.
  induction pattern as [|c rest IH]; intros h l h' H; cbn in H.
  - by inversion H.
  - destruct (Square.from_pattern _ h) as [[s|e] h1]; [|done].
    destruct (Tape.squares_from_pattern rest h1) as [[l'|e] h2] eqn:Hr;
      [|done].
    inversion H; subst. cbn. f_equal. by eapply IH.
Qed.

Lemma next_Ok_inv (self self' : Machine.t) (move : Move.t) :
  next self = (Ok move, self') ->
  exists sq b,
    state_i self <> 0
    /\ Tape.getitem (tape self) (square_i self) = Ok sq
    /\ looked_up self = Some b
    /\ self' = step_with sq b self
    /\ move = Move.init (Tape.symbols (tape self') (heap_of self'))
                        (square_i self) (square_i self')
                        (state_i self) (state_i self').
Proof.
  intros Hn. pose proof (next_outcome_next self) as Ho. rewrite Hn in Ho.
  inversion Ho; subst. by exists sq, b.
Qed.

Lemma next_Raise_inv (self self' : Machine.t) (e : exn) :
  next self = (Raise e, self') ->
  self' = self
  /\ (e = StopIteration /\ state_i self = 0
      \/ e = IndexError /\ state_i self <> 0 /\ looked_up self = None).
Proof.
  intros Hn. pose proof (next_outcome_next self) as Ho. rewrite Hn in Ho.
  inversion Ho; subst; split; auto.
Qed.

(** A new blank square does not change what the squares already in the
    store hold. *)
Lemma symbol_after_init (h : heap) (s : loc) :
  Square.symbol (h ++ [false]) s = Square.symbol h s.
Proof.
  unfold Square.symbol.
  destruct (decide (s < length h)%nat) as [Hlt|Hge].
  - by rewrite lookup_app_l.
  - rewrite lookup_app_r by lia.
    rewrite (proj2 (lookup_ge_None h s)) by lia.
    by destruct (s - length h)%nat as [|[|k]].
Qed.

Lemma symbol_of_new (h : heap) (v : bool) :
  Square.symbol (snd (Square.init v h)) (fst (Square.init v h)) = v.
Proof.
  unfold Square.symbol, Square.init; cbn.
  rewrite lookup_app_r by lia. by rewrite Nat.sub_diag.
Qed.

(** *** Runs *)

Lemma after_O (self : Machine.t) : after 0 self = Some self.
Proof. reflexivity. Qed.

Lemma after_S (n : nat) (self : Machine.t) :
  after (S n) self =
    match next self with
    | (Ok _, self') => after n self'
    | (Raise _, _) => None
    end.
Proof.
  unfold after; cbn.
  destruct (next self) as [[move|e] self1].
  - by destruct (iterate n self1) as [[moves e] self2].
  - by destruct e.
Qed.

Lemma after_add (n k : nat) : forall self,
  after (n + k) self =
    match after n self with
    | Some self' => after k self'
    | None => None
    end.
Proof.
  induction n as [|n IH]; intros self; [done|].
  rewrite Nat.add_succ_l, !after_S.
  destruct (next self) as [[move|e] self1]; [apply IH|done].
Qed.

Lemma after_head_in_range (n : nat) : forall self self',
  after n self = Some self' ->
  head_in_range self = true -> head_in_range self' = true.
Proof.
  induction n as [|n IH]; intros self self' Ha Hh.
  - by inversion Ha; subst.
  - rewrite after_S in Ha.
    destruct (next self) as [[move|e] self1] eqn:Hn; [|done].
    apply next_Ok_inv in Hn as (sq & b & _ & _ & _ & -> & _).
    eapply IH; [done|]. by apply step_with_head_in_range.
Qed.

(** The length grows by at most one per step. *)
Lemma after_len (n : nat) : forall self self',
  after n self = Some self' ->
  Tape.len (tape self) <= Tape.len (tape self')
                       <= Tape.len (tape self) + Z.of_nat n.
Proof.
  induction n as [|n IH]; intros self self' Ha.
  - inversion Ha; subst. lia.
  - rewrite after_S in Ha.
    destruct (next self) as [[move|e] self1] eqn:Hn; [|done].
    apply next_Ok_inv in Hn as (sq & b & _ & _ & _ & -> & _).
    apply IH in Ha. rewrite step_with_len in Ha.
    repeat case_match; lia.
Qed.

(** Whatever ends the loop, the machine it leaves is the machine after
    as many steps as there are Moves. *)
Lemma iterate_after (fuel : nat) : forall self moves e self',
  iterate fuel self = (moves, e, self') ->
  after (length moves) self = Some self' /\ (length moves <= fuel)%nat.
Proof.
  induction fuel as [|fuel IH]; intros self moves e self' Hi; cbn in Hi.
  - inversion Hi; subst. split; [done|cbn; lia].
  - destruct (next self) as [[move|e1] self1] eqn:Hn.
    + destruct (iterate fuel self1) as [[moves1 e2] self2] eqn:Hi1.
      inversion Hi; subst. apply IH in Hi1 as [Ha Hl].
      cbn [length]. rewrite after_S, Hn. split; [done|lia].
    + apply next_Raise_inv in Hn as [-> _].
      destruct e1; inversion Hi; subst; (split; [done|cbn; lia]).
Qed.

Lemma iterate_last (fuel : nat) : forall self moves e self' move,
  iterate fuel self = (moves, e, self') ->
  last moves = Some move ->
  Move.to_state_i move = state_i self'.
Proof.
  induction fuel as [|fuel IH]; intros self moves e self' move Hi Hl;
    cbn in Hi.
  - by inversion Hi; subst.
  - destruct (next self) as [[move1|e1] self1] eqn:Hn.
    + destruct (iterate fuel self1) as [[moves1 e2] self2] eqn:Hi1.
      inversion Hi; subst.
      destruct moves1 as [|move2 moves2].
      * cbn in Hl. inversion Hl; subst.
        apply iterate_after in Hi1 as [Ha _]. inversion Ha; subst.
        by apply move_fields in Hn as (_ & _ & _ & _ & ?).
      * eapply IH; [done|]. by rewrite last_cons_cons in Hl.
    + destruct e1; by inversion Hi; subst.
Qed.

Lemma iterate_Exhausted_halted (fuel : nat) : forall self moves self',
  iterate fuel self = (moves, Exhausted, self') -> state_i self' = 0.
Proof.
  induction fuel as [|fuel IH]; intros self moves self' Hi; cbn in Hi;
    [done|].
  destruct (next self) as [[move1|e1] self1] eqn:Hn.
  - destruct (iterate fuel self1) as [[moves1 e2] self2] eqn:Hi1.
    inversion Hi; subst. by eapply IH.
  - apply next_Raise_inv in Hn as [-> [[-> Hs]|[-> _]]];
      by inversion Hi; subst.
Qed.

(** While Moves are still to come, the machine is not halted. *)
Lemma iterate_running (fuel : nat) : forall self moves e self' k self_k,
  iterate fuel self = (moves, e, self') ->
  (k < length moves)%nat ->
  after k self = Some self_k ->
  state_i self_k <> 0.
Proof.
  induction fuel as [|fuel IH]; intros self moves e self' k self_k Hi Hk Ha;
    cbn in Hi.
  - inversion Hi; subst. cbn in Hk. lia.
  - destruct (next self) as [[move1|e1] self1] eqn:Hn.
    + destruct (iterate fuel self1) as [[moves1 e2] self2] eqn:Hi1.
      inversion Hi; subst.
      destruct k as [|k].
      * inversion Ha; subst.
        by apply next_Ok_inv in Hn as (sq & b & Hs & _).
      * rewrite after_S, Hn in Ha. cbn in Hk.
        eapply (IH _ _ _ _ k); [done|lia|done].
    + destruct e1; inversion Hi; subst; cbn in Hk; lia.
Qed.

(** With enough fuel the loop reaches the halt it has ahead. *)
Lemma iterate_enough_fuel (n : nat) : forall self self_n fuel,
  after n self = Some self_n ->
  state_i self_n = 0 ->
  (n < fuel)%nat ->
  exists moves,
    iterate fuel self = (moves, Exhausted, self_n) /\ length moves = n.
Proof.
  induction n as [|n IH]; intros self self_n fuel Ha Hs Hf;
    (destruct fuel as [|fuel]; [lia|]); cbn.
  - inversion Ha; subst. exists []. rewrite next_eq, Hs. by cbn.
  - rewrite after_S in Ha.
    destruct (next self) as [[move1|e1] self1] eqn:Hn; [|done].
    destruct (IH self1 self_n fuel Ha Hs ltac:(lia)) as (moves & -> & Hl).
    exists (move1 :: moves). split; [done|]. cbn. by rewrite Hl.
Qed.

End Step.

(** ** The adder of examples.py

    [adder.calculate('xxoxx')]: the run halts after six Moves with the head
    on square 2 and the tape [ooxxx]. *)
Example adder_xxoxx :
  match Machine.from_patterns "xxoxx" adder_program with
  | Ok self =>
      let '(moves, e, self') := Machine.iterate 100 self in
      e = Machine.Exhausted
      /\ length moves = 6%nat
      /\ Machine.square_i self' = 2
      /\ Tape.symbols (Machine.tape self') (Machine.heap_of self')
         = [false; false; true; true; true]
  | Raise _ => False
  end.
Proof. vm_compute. by repeat split. Qed.

(** ** The claims *)

Import Machine.

(** C1 (the Move of a step records the state index before the step in
    [from_state_i]): the code does not. On the first step of the adder of
    examples.py on the tape [xxoxx] the machine is in state 1 with its head
    on square 0, and the Move that [__next__] returns has [from_state_i = 0],
    the head position, while [to_state_i] is the state after the step. *)
Theorem first_move_from_state_i :
  exists self move self',
    Machine.from_patterns "xxoxx" adder_program = Ok self
    /\ next self = (Ok move, self')
    /\ state_i self = 1
    /\ square_i self = 0
    /\ Move.from_state_i move = 0
    /\ Move.to_state_i move = state_i self'
    /\ state_i self' = 2.
Proof.
  eexists _, _, _. split; [reflexivity|].
  split; [vm_compute; reflexivity|]. by vm_compute.
Qed.

(** C2, as stated, fails: position -1 is outside 0..len-1 of a tape of two
    squares, yet reading there returns the last square and writing there
    stamps it. *)
Lemma negative_position_reads_and_writes :
  let tp := Tape.mk [0%nat; 1%nat] in
  let self := Machine.mk [false; false] tp adder_program (-1) 1
                         (Some (B true true 2)) in
  ~ (0 <= -1 <= Tape.len tp - 1)
  /\ Tape.getitem tp (-1) = Ok 1%nat
  /\ stamp self =
       (Ok tt, Machine.mk [false; true] tp adder_program (-1) 1
                          (Some (B true true 2))).
Proof.
  intros tp self. split; [|split; reflexivity].
  intros [H _]. by apply H.
Qed.

(** C2, amended: a position [i] with [i >= len] or [i < -len] makes the
    read raise IndexError and makes the write of a symbol at the head
    raise IndexError and change nothing; a position with [-len <= i < 0]
    reads and writes the square at [i + len], and one with [0 <= i < len]
    the square at [i]. *)
Theorem tape_subscript_range (tp : Tape.t) (i : Z) :
  (i < - Tape.len tp \/ Tape.len tp <= i ->
     Tape.getitem tp i = Raise IndexError
     /\ forall self b,
          tape self = tp -> square_i self = i -> configuration self = Some b ->
          stamp self = (Raise IndexError, self))
  /\ (- Tape.len tp <= i < Tape.len tp ->
      exists sq,
        Tape.squares tp !! Z.to_nat (if i <? 0 then i + Tape.len tp else i)
          = Some sq
        /\ Tape.getitem tp i = Ok sq
        /\ forall self b,
             tape self = tp -> square_i self = i ->
             configuration self = Some b ->
             stamp self =
               (Ok tt,
                Machine.mk
                  (Square.set_symbol (heap_of self) sq (Behavior.symbol b))
                  tp (program self) i (state_i self) (Some b))).
Proof.
  split.
  - intros Hi.
    assert (Tape.getitem tp i = Raise IndexError) as Hg
      by by apply list_getitem_outside.
    split; [done|]. intros self b <- <- Hc.
    by rewrite (stamp_eq _ _ Hc), Hg.
  - intros Hi. unfold Tape.len in *.
    assert (exists sq,
              Tape.squares tp
                !! Z.to_nat (if i <? 0 then i + Z.of_nat (length (Tape.squares tp))
                             else i) = Some sq
              /\ Tape.getitem tp i = Ok sq) as (sq & Hsq & Hg).
    { destruct (i <? 0) eqn:E.
      - apply list_getitem_from_end. lia.
      - apply list_getitem_inside. lia. }
    exists sq. split; [done|]. split; [done|].
    intros self b <- <- Hc.
    by rewrite (stamp_eq _ _ Hc), Hg, Hc.
Qed.

Lemma tape_subscript_range_witness :
  let tp := Tape.mk [0%nat; 1%nat] in
  let at_ i := Machine.mk [false; false] tp adder_program i 1
                          (Some (B true true 2)) in
  (Tape.getitem tp 2 = Raise IndexError
   /\ stamp (at_ 2) = (Raise IndexError, at_ 2))
  /\ (Tape.getitem tp (-2) = Ok 0%nat
      /\ stamp (at_ (-2)) =
           (Ok tt, Machine.mk [true; false] tp adder_program (-2) 1
                              (Some (B true true 2)))).
Proof.
  intros tp at_. split.
  - destruct (proj1 (tape_subscript_range tp 2)) as [Hread Hwrite].
    + unfold Tape.len; simpl. lia.
    + split; [exact Hread|].
      apply (Hwrite (at_ 2) (B true true 2)); reflexivity.
  - destruct (proj2 (tape_subscript_range tp (-2)))
      as (sq & Hsq & Hread & Hwrite).
    + unfold Tape.len; simpl. lia.
    + cbn in Hsq. injection Hsq as <-. split; [exact Hread|].
      apply (Hwrite (at_ (-2)) (B true true 2)); reflexivity.
Defined.

(** C3, as stated, fails: the tape built from the empty pattern is
    constructed without error and has no square. *)
Lemma empty_pattern_gives_empty_tape :
  Tape.from_pattern "" [] = (Ok (Tape.mk []), [])
  /\ Tape.len (Tape.mk []) = 0
  /\ ~ (1 <= Tape.len (Tape.init [])).
Proof.
  split; [reflexivity|]. split; [reflexivity|].
  unfold Tape.len; simpl. lia.
Qed.

(** C3, amended: the default squares of a Tape are a single blank cell; a
    Tape built from a pattern has as many squares as the pattern has
    characters (none for the empty pattern) and one built from a list as
    many as the list; [feed_left] and [feed_right] add exactly one square;
    and a call of [__next__] or of [rewind] never shortens the tape, so a
    length of at least 1 is kept once it holds. *)
Theorem tape_length_kept :
  (Tape.len (Tape.init (fst Tape.default_squares)) = 1
   /\ Tape.symbols (Tape.init (fst Tape.default_squares))
                   (snd Tape.default_squares) = [false])
  /\ (forall pattern h tp h',
        Tape.from_pattern pattern h = (Ok tp, h') ->
        Tape.len tp = Z.of_nat (String.length pattern))
  /\ (forall l, Tape.len (Tape.init l) = Z.of_nat (length l))
  /\ (forall tp h,
        Tape.len (fst (Tape.feed_left tp h)) = Tape.len tp + 1
        /\ Tape.len (fst (Tape.feed_right tp h)) = Tape.len tp + 1)
  /\ (forall self,
        1 <= Tape.len (tape self) ->
        1 <= Tape.len (tape (snd (next self)))
        /\ 1 <= Tape.len (tape (snd (rewind self)))).
Proof.
  split; [by split|].
  split.
  { intros pattern h tp h' H. unfold Tape.from_pattern in H.
    destruct (Tape.squares_from_pattern pattern h) as [[l|e] h1] eqn:Hl;
      [|done].
    inversion H; subst. unfold Tape.len, Tape.init; cbn.
    f_equal. by eapply squares_from_pattern_length. }
  split; [done|].
  split.
  { intros tp h. unfold Tape.len; cbn. rewrite length_app; cbn. lia. }
  intros self Hlen. split.
  - destruct (next_outcome_next self) as [| |sq b _ _ _ self']; [done..|].
    subst self'; cbn. rewrite step_with_len. repeat case_match; lia.
  - by rewrite rewind_eq.
Qed.

Lemma tape_length_kept_witness :
  Tape.len (Tape.mk [0%nat; 1%nat]) = 2
  /\ 1 <= Tape.len (tape (snd (next
            (Machine.init [true; false] (Tape.mk [0%nat; 1%nat])
                          adder_program)))).
Proof.
  destruct tape_length_kept as (_ & Hpat & _ & _ & Hnext).
  split.
  - apply (Hpat "xo" [] (Tape.mk [0%nat; 1%nat]) [true; false]).
    reflexivity.
  - apply Hnext. unfold Tape.len; simpl. lia.
Defined.

(** C4: a step whose looked-up Behavior goes left while the head is on
    square 0 returns a Move; after scan and stamp it calls [feed_left],
    which puts one new blank square in front of the squares there were,
    and the head index stays 0. In particular the first step of a machine
    on a one-square tape ([o] or [x]) under a program whose state 1 goes
    left on both symbols returns a Move and leaves two squares, the blank
    new one first. *)
Theorem left_at_square_zero_feeds_left :
  (forall self b,
     state_i self <> 0 ->
     square_i self = 0 ->
     looked_up self = Some b ->
     Behavior.goes_right b = false ->
     exists move self' scanned stamped,
       next self = (Ok move, self')
       /\ scan self = (Ok tt, scanned)
       /\ stamp scanned = (Ok tt, stamped)
       /\ Tape.feed_left (tape stamped) (heap_of stamped)
          = (tape self', heap_of self')
       /\ Tape.symbols (tape self') (heap_of self')
          = false :: Tape.symbols (tape stamped) (heap_of stamped)
       /\ Tape.len (tape self') = Tape.len (tape self) + 1
       /\ square_i self' = 0
       /\ Move.from_square_i move = 0
       /\ Move.to_square_i move = 0)
  /\ (forall prog st (x : bool),
        Program.getitem prog 1 = Ok st ->
        Behavior.goes_right (State.when_false st) = false ->
        Behavior.goes_right (State.when_true st) = false ->
        exists self move self',
          Machine.from_patterns (if x then "x" else "o") prog = Ok self
          /\ Tape.len (tape self) = 1
          /\ next self = (Ok move, self')
          /\ Tape.len (tape self') = 2
          /\ square_i self' = 0
          /\ Move.symbols move
             = [false; Behavior.symbol (State.getitem st x)]).
Proof.
  split.
  - intros self b Hs Hi Hl Hb.
    pose proof (looked_up_eq self) as Hl'. rewrite Hl in Hl'.
    destruct (Tape.getitem (tape self) (square_i self)) as [sq|] eqn:Hsq;
      [|done].
    destruct (Program.getitem (program self) (state_i self)) as [st|] eqn:Hst;
      [|done].
    injection Hl' as Hb'.
    eexists _, _, _, _.
    split.
    { rewrite next_eq, Hsq, Hst.
      destruct (state_i self =? 0) eqn:E; [lia|]. reflexivity. }
    split; [by rewrite scan_eq, Hsq, Hst|].
    split; [by erewrite stamp_eq; [cbn; rewrite Hsq|]|].
    rewrite <- Hb'. cbn.
    unfold step_with. rewrite Hb, Hi. cbn.
    split; [done|].
    split.
    { unfold Tape.symbols, Square.to_bool; cbn. f_equal.
      - pose proof (symbol_of_new
          (Square.set_symbol (heap_of self) sq (Behavior.symbol b)) false)
          as Hn.
        exact Hn.
      - apply map_ext. intros s. apply symbol_after_init. }
    split; [unfold Tape.len; cbn; lia|done].
  - intros prog st x Hst Hf Ht.
    exists (Machine.init [x] (Tape.mk [0%nat]) prog).
    eexists _, _.
    split; [by destruct x|].
    split; [done|].
    split.
    { rewrite next_eq. cbn [state_i square_i tape program heap_of init].
      rewrite Hst. cbn. reflexivity. }
    unfold step_with, State.getitem.
    destruct x; cbn; rewrite ?Hf, ?Ht; by cbn.
Qed.

Lemma left_at_square_zero_feeds_left_witness :
  let prog := Program.mk [State.mk (B true false 1) (B false false 0)] in
  (exists move self' scanned stamped,
     next (Machine.init [false] (Tape.mk [0%nat]) prog) = (Ok move, self')
     /\ scan (Machine.init [false] (Tape.mk [0%nat]) prog) = (Ok tt, scanned)
     /\ stamp scanned = (Ok tt, stamped)
     /\ Tape.feed_left (tape stamped) (heap_of stamped)
        = (tape self', heap_of self')
     /\ Tape.symbols (tape self') (heap_of self')
        = false :: Tape.symbols (tape stamped) (heap_of stamped)
     /\ Tape.len (tape self') = 1 + 1
     /\ square_i self' = 0
     /\ Move.from_square_i move = 0
     /\ Move.to_square_i move = 0)
  /\ exists self move self',
       Machine.from_patterns "o" prog = Ok self
       /\ Tape.len (tape self) = 1
       /\ next self = (Ok move, self')
       /\ Tape.len (tape self') = 2
       /\ square_i self' = 0
       /\ Move.symbols move = [false; true].
Proof.
  intros prog. split.
  - apply (proj1 left_at_square_zero_feeds_left
                 (Machine.init [false] (Tape.mk [0%nat]) prog)
                 (B true false 1)); [simpl; lia|reflexivity..].
  - exact (proj2 left_at_square_zero_feeds_left prog
                 (State.mk (B true false 1) (B false false 0)) false
                 eq_refl eq_refl eq_refl).
Defined.

(** C5: the head position is a valid index of the tape of a new machine
    whose tape is not empty, it is one again after every call of
    [__next__], whether that call returns a Move or raises, and so it is
    one after any number of steps; a head in range is a position at which
    the tape subscript does not raise. *)
Theorem head_stays_in_range :
  (forall self,
     head_in_range self = true <->
     0 <= square_i self < Tape.len (tape self))
  /\ (forall h tp prog,
        1 <= Tape.len tp -> head_in_range (Machine.init h tp prog) = true)
  /\ (forall self,
        head_in_range self = true ->
        head_in_range (snd (next self)) = true
        /\ exists sq, Tape.getitem (tape self) (square_i self) = Ok sq)
  /\ (forall fuel self,
        head_in_range self = true ->
        head_in_range (snd (iterate fuel self)) = true).
Proof.
  split; [intros self; unfold head_in_range; lia|].
  split; [intros h tp prog Hl; unfold head_in_range; cbn; lia|].
  split.
  - intros self Hh. split.
    + destruct (next_outcome_next self) as [| |sq b _ _ _ self']; [done..|].
      by apply step_with_head_in_range.
    + unfold head_in_range, Tape.len in Hh.
      destruct (list_getitem_inside (Tape.squares (tape self)) (square_i self))
        as (sq & _ & Hsq); [lia|by exists sq].
  - intros fuel self Hh.
    destruct (iterate fuel self) as [[moves e] self'] eqn:Hi.
    apply iterate_after in Hi as [Ha _].
    by eapply after_head_in_range.
Qed.

Lemma head_stays_in_range_witness :
  let self := Machine.init [true; false] (Tape.mk [0%nat; 1%nat])
                           adder_program in
  head_in_range self = true
  /\ head_in_range (snd (next self)) = true
  /\ head_in_range (snd (iterate 3 self)) = true.
Proof.
  intros self.
  destruct head_stays_in_range as (_ & Hinit & Hnext & Hrun).
  split; [apply Hinit; unfold Tape.len, Tape.squares, length; lia|].
  split.
  - apply Hnext. reflexivity.
  - apply (Hrun 3%nat). reflexivity.
Defined.

(** C6: on a machine whose state index is 0, [__next__] raises
    StopIteration and nothing else, and the machine (tape, squares, head
    position, state index, configuration) is what it was; a loop over the
    machine then ends normally, with no Move. *)
Theorem next_when_halted (self : Machine.t) :
  state_i self = 0 ->
  next self = (Raise StopIteration, self)
  /\ forall fuel,
       iterate (S fuel) self = ([], Exhausted, self)
       /\ run (S fuel) self = Some (Ok tt, self).
Proof.
  intros Hs.
  assert (next self = (Raise StopIteration, self)) as Hn.
  { rewrite next_eq. by rewrite Hs. }
  split; [done|]. intros fuel. unfold run. cbn. by rewrite Hn.
Qed.

Lemma next_when_halted_witness :
  let self := Machine.mk [false] (Tape.mk [0%nat]) adder_program 2 0 None in
  next self = (Raise StopIteration, self).
Proof.
  intros self. apply (next_when_halted self). reflexivity.
Defined.

(** C7: when the loop over a machine ends by exhaustion, the number of
    Moves it has produced is the number of steps after which the state
    index is 0 for the first time (the machine after that many steps is
    the halted machine the loop leaves, and after fewer steps the state
    index is not 0), and the last Move has [to_state_i = 0]; a run that
    starts in a state other than 0 has a last Move; [operate] stores those
    Moves. Conversely a machine whose state index is 0 after [n] steps
    makes the loop end by exhaustion with [n] Moves as soon as more than
    [n] calls are followed. This holds for every table, well-formed or
    not. *)
Theorem halting_run_moves :
  (forall fuel self moves self',
     iterate fuel self = (moves, Exhausted, self') ->
     after (length moves) self = Some self'
     /\ state_i self' = 0
     /\ (forall k self_k,
           (k < length moves)%nat ->
           after k self = Some self_k -> state_i self_k <> 0)
     /\ (forall move, last moves = Some move -> Move.to_state_i move = 0)
     /\ (state_i self <> 0 -> exists move, last moves = Some move)
     /\ Operator.operate fuel (Operator.init self)
        = Some (Ok tt, Operator.mk self' moves))
  /\ (forall n self self_n fuel,
        after n self = Some self_n ->
        state_i self_n = 0 ->
        (n < fuel)%nat ->
        exists moves,
          iterate fuel self = (moves, Exhausted, self_n)
          /\ length moves = n).
Proof.
  split.
  - intros fuel self moves self' Hi.
    pose proof (iterate_after _ _ _ _ _ Hi) as [Ha _].
    pose proof (iterate_Exhausted_halted _ _ _ _ Hi) as Hs.
    split; [done|]. split; [done|].
    split; [intros k self_k; by eapply iterate_running|].
    split.
    { intros move Hl. rewrite <- Hs. by eapply iterate_last. }
    split.
    { intros Hrun. destruct moves as [|move moves] using rev_ind.
      - cbn in Ha. inversion Ha; subst. done.
      - exists move. by rewrite last_snoc. }
    unfold Operator.operate, Operator.init; cbn. by rewrite Hi.
  - intros n self self_n fuel. apply iterate_enough_fuel.
Qed.

Lemma halting_run_moves_witness :
  let self := Machine.init [true; true; false; true; true]
                (Tape.mk [0; 1; 2; 3; 4]%nat) adder_program in
  (state_i (snd (iterate 10 self)) = 0
   /\ after 6 self = Some (snd (iterate 10 self)))
  /\ exists moves,
       iterate 7 self = (moves, Exhausted, snd (iterate 10 self))
       /\ length moves = 6%nat.
Proof.
  intros self. split.
  - destruct (proj1 halting_run_moves 10%nat self
                (fst (fst (iterate 10 self))) (snd (iterate 10 self)))
      as (Ha & Hs & _); [reflexivity|].
    split; [exact Hs|exact Ha].
  - apply (proj2 halting_run_moves 6%nat self (snd (iterate 10 self)) 7%nat);
      [reflexivity|reflexivity|lia].
Defined.

(** C8: a call of [__next__] that returns a Move leaves the tape one
    square longer when it went left from square 0 or right from the last
    index, and as long as it was otherwise; a call that raises leaves the
    tape as it was; so along a run the length never decreases, and after
    [n] steps it has grown by at most [n]. *)
Theorem tape_length_grows_at_the_edges (self : Machine.t) :
  (forall move self',
     next self = (Ok move, self') ->
     exists b,
       looked_up self = Some b
       /\ Tape.len (tape self') =
            if (negb (Behavior.goes_right b) && (square_i self =? 0))
               || (Behavior.goes_right b
                   && (square_i self =? Tape.len (tape self) - 1))
            then Tape.len (tape self) + 1
            else Tape.len (tape self))
  /\ (forall e self', next self = (Raise e, self') -> tape self' = tape self)
  /\ (forall n k self_n self_k,
        (n <= k)%nat ->
        after n self = Some self_n ->
        after k self = Some self_k ->
        Tape.len (tape self_n) <= Tape.len (tape self_k)
                               <= Tape.len (tape self_n) + Z.of_nat (k - n))
  /\ (forall fuel,
        Tape.len (tape self) <= Tape.len (tape (snd (iterate fuel self)))).
Proof.
  split.
  { intros move self' Hn.
    apply next_Ok_inv in Hn as (sq & b & _ & _ & Hl & -> & _).
    exists b. split; [done|]. rewrite step_with_len.
    destruct (Behavior.goes_right b); cbn; by repeat case_match. }
  split.
  { intros e self' Hn. by apply next_Raise_inv in Hn as [-> _]. }
  split.
  { intros n k self_n self_k Hnk Hn Hk.
    replace k with (n + (k - n))%nat in Hk by lia.
    rewrite after_add, Hn in Hk. by apply after_len in Hk. }
  intros fuel.
  destruct (iterate fuel self) as [[moves e] self'] eqn:Hi.
  apply iterate_after in Hi as [Ha _]. apply after_len in Ha. cbn. lia.
Qed.

Lemma tape_length_grows_at_the_edges_witness :
  let self := Machine.init [false] (Tape.mk [0%nat])
                (Program.mk [State.mk (B true true 1) (B true true 0)]) in
  (exists b,
     looked_up self = Some b
     /\ Tape.len (tape (snd (next self))) =
          if (negb (Behavior.goes_right b) && (square_i self =? 0))
             || (Behavior.goes_right b
                 && (square_i self =? Tape.len (tape self) - 1))
          then Tape.len (tape self) + 1
          else Tape.len (tape self))
  /\ Tape.len (tape self) <= Tape.len (tape (snd (iterate 4 self))).
Proof.
  intros self.
  destruct (tape_length_grows_at_the_edges self) as (Hstep & _ & _ & Hrun).
  split.
  - apply (Hstep (Move.init [true; false] 0 1 1 1) (snd (next self))).
    reflexivity.
  - apply (Hrun 4%nat).
Defined.

(** C9: on every machine, and so after any number of steps, [rewind]
    raises nothing, sets the head position to 0 and the state index to 1,
    removes the configuration, and leaves the tape, the symbol of every
    square and the program as they were. *)
Theorem rewind_resets_head_and_state (self : Machine.t) :
  (exists self',
     rewind self = (Ok tt, self')
     /\ square_i self' = 0
     /\ state_i self' = 1
     /\ configuration self' = None
     /\ tape self' = tape self
     /\ heap_of self' = heap_of self
     /\ Tape.symbols (tape self') (heap_of self')
        = Tape.symbols (tape self) (heap_of self)
     /\ program self' = program self)
  /\ forall fuel,
       let ran := snd (iterate fuel self) in
       let self' := snd (rewind ran) in
       square_i self' = 0 /\ state_i self' = 1
       /\ configuration self' = None
       /\ Tape.symbols (tape self') (heap_of self')
          = Tape.symbols (tape ran) (heap_of ran).
Proof.
  split.
  - eexists. split; [apply rewind_eq|]. by cbn.
  - intros fuel ran self'. subst self'. by rewrite rewind_eq.
Qed.

(** C10: for the Move of every step, [to_square_i - from_square_i] is -1,
    0 or +1; it is 0 exactly when the looked-up Behavior goes left and the
    head was on square 0, +1 whenever the Behavior goes right (at the last
    index too), and -1 when it goes left from another square. *)
Theorem head_moves_by_at_most_one (self self' : Machine.t) (move : Move.t) :
  next self = (Ok move, self') ->
  exists b,
    looked_up self = Some b
    /\ Move.from_square_i move = square_i self
    /\ Move.to_square_i move = square_i self'
    /\ let d := Move.to_square_i move - Move.from_square_i move in
       (d = -1 \/ d = 0 \/ d = 1)
       /\ (d = 0 <-> Behavior.goes_right b = false /\ square_i self = 0)
       /\ (Behavior.goes_right b = true -> d = 1)
       /\ (Behavior.goes_right b = false -> square_i self <> 0 -> d = -1).
Proof.
  intros Hn.
  apply move_fields in Hn as Hm. destruct Hm as (_ & -> & -> & _).
  apply next_Ok_inv in Hn as (sq & b & _ & _ & Hl & -> & _).
  exists b. split; [done|]. split; [done|]. split; [done|].
  rewrite step_with_square_i. cbn.
  destruct (Behavior.goes_right b);
    destruct (square_i self =? 0) eqn:E;
    repeat split; try intros; try lia; try done.
Qed.

Lemma head_moves_by_at_most_one_witness :
  let self := Machine.init [false] (Tape.mk [0%nat])
                (Program.mk [State.mk (B true false 1) (B true true 0)]) in
  let move := Move.init [false; true] 0 0 1 1 in
  exists b,
    looked_up self = Some b
    /\ Move.from_square_i move = square_i self
    /\ Move.to_square_i move = square_i (snd (next self))
    /\ let d := Move.to_square_i move - Move.from_square_i move in
       (d = -1 \/ d = 0 \/ d = 1)
       /\ (d = 0 <-> Behavior.goes_right b = false /\ square_i self = 0)
       /\ (Behavior.goes_right b = true -> d = 1)
       /\ (Behavior.goes_right b = false -> square_i self <> 0 -> d = -1).
Proof.
  intros self move.
  apply (head_moves_by_at_most_one self (snd (next self)) move). reflexivity.
Defined.

(** ** Further properties *)

Section Patterns.

Lemma square_from_pattern_char (c : Ascii.ascii) (h : list bool) :
  Square.from_pattern (String c EmptyString) h =
    if String.eqb (String c EmptyString) "o"
       || String.eqb (String c EmptyString) "x"
    then (Ok (length h),
          h ++ [String.eqb (String c EmptyString) "x"])
    else (Raise ValueError, h).
Proof.
  unfold Square.from_pattern.
  by destruct (String.eqb _ "o" || String.eqb _ "x").
Qed.

Lemma squares_from_pattern_marks (pattern : string) : forall h,
  only_marks pattern = true ->
  Tape.squares_from_pattern pattern h =
    (Ok (seq (length h) (String.length pattern)), h ++ symbols_of pattern).
Proof.
  induction pattern as [|c rest IH]; intros h Hm.
  - cbn. by rewrite app_nil_r.
  - cbn [only_marks] in Hm. apply andb_prop in Hm as [Hc Hrest].
    cbn [Tape.squares_from_pattern].
    rewrite square_from_pattern_char, Hc.
    rewrite (IH _ Hrest). rewrite length_app, <- app_assoc. cbn.
    by rewrite Nat.add_1_r.
Qed.

Lemma squares_from_pattern_bad (pattern : string) : forall h,
  only_marks pattern = false ->
  exists h', Tape.squares_from_pattern pattern h = (Raise ValueError, h').
Proof.
  induction pattern as [|c rest IH]; intros h Hm; [done|].
  cbn [only_marks] in Hm. cbn [Tape.squares_from_pattern].
  rewrite square_from_pattern_char.
  destruct (String.eqb _ "o" || String.eqb _ "x"); [|by eexists].
  cbn in Hm. destruct (IH (h ++ [String.eqb (String c EmptyString) "x"]) Hm)
    as [h' ->].
  by eexists.
Qed.

Lemma symbols_of_new_squares (h l : list bool) :
  map (Square.to_bool (h ++ l)) (seq (length h) (length l)) = l.
Proof.
  apply list_eq. intros k.
  rewrite list_lookup_fmap.
  destruct (decide (k < length l)%nat) as [Hk|Hk].
  - rewrite lookup_seq_lt by done. cbn.
    unfold Square.to_bool, Square.symbol.
    rewrite lookup_app_r by lia.
    replace (length h + k - length h)%nat with k by lia.
    destruct (lookup_lt_is_Some_2 l k Hk) as [v Hv]. by rewrite Hv.
  - rewrite lookup_seq_ge by lia. cbn.
    symmetry. apply lookup_ge_None. lia.
Qed.

Lemma symbols_of_length (pattern : string) :
  length (symbols_of pattern) = String.length pattern.
Proof. induction pattern; cbn; congruence. Qed.

Lemma marks_cons (v : bool) (l : list bool) :
  exists c, mark v = String c EmptyString
            /\ marks (v :: l) = String c (marks l).
Proof.
  unfold marks; cbn [map String.concat].
  destruct (map mark l) as [|m ms]; destruct v; by eexists.
Qed.

Lemma only_marks_marks (l : list bool) : only_marks (marks l) = true.
Proof.
  induction l as [|v l IH]; [done|].
  destruct (marks_cons v l) as (c & Hc & ->).
  cbn [only_marks]. rewrite <- Hc, IH. by destruct v.
Qed.

Lemma symbols_of_marks (l : list bool) : symbols_of (marks l) = l.
Proof.
  induction l as [|v l IH]; [done|].
  destruct (marks_cons v l) as (c & Hc & ->).
  cbn [symbols_of]. rewrite <- Hc, IH. by destruct v.
Qed.

Lemma marks_length (l : list bool) : String.length (marks l) = length l.
Proof.
  induction l as [|v l IH]; [done|].
  destruct (marks_cons v l) as (c & Hc & ->). cbn. by rewrite IH.
Qed.

End Patterns.

Lemma from_pattern_accepts_marks_only_aux (pattern : string) (h : list bool) :
  (only_marks pattern = true ->
     Tape.from_pattern pattern h
       = (Ok (Tape.mk (seq (length h) (String.length pattern))),
          h ++ symbols_of pattern)
     /\ Tape.symbols (Tape.mk (seq (length h) (String.length pattern)))
                     (h ++ symbols_of pattern)
        = symbols_of pattern)
  /\ (only_marks pattern = false ->
      exists h', Tape.from_pattern pattern h = (Raise ValueError, h')).
Proof.
  unfold Tape.from_pattern. split; intros Hm.
  - rewrite (squares_from_pattern_marks _ _ Hm). split; [done|].
    unfold Tape.symbols; cbn. rewrite <- symbols_of_length.
    apply symbols_of_new_squares.
  - destruct (squares_from_pattern_bad _ h Hm) as [h' ->]. by eexists.
Qed.

(** X1: [Tape.from_pattern] succeeds exactly on the patterns made of [o]
    and [x] only. On such a pattern it makes one new square per character,
    in order, after the squares the store already holds, which it leaves
    as they are, and the tape reads back as the symbols of the pattern; on
    any other pattern it raises ValueError. *)
Theorem from_pattern_accepts_marks_only (pattern : string) (h : list bool) :
  (only_marks pattern = true ->
     Tape.from_pattern pattern h
       = (Ok (Tape.mk (seq (length h) (String.length pattern))),
          h ++ symbols_of pattern)
     /\ Tape.symbols (Tape.mk (seq (length h) (String.length pattern)))
                     (h ++ symbols_of pattern)
        = symbols_of pattern)
  /\ (only_marks pattern = false ->
      exists h', Tape.from_pattern pattern h = (Raise ValueError, h')).
Proof. apply from_pattern_accepts_marks_only_aux. Qed.

Lemma from_pattern_accepts_marks_only_witness :
  (Tape.from_pattern "xo" [true]
     = (Ok (Tape.mk [1; 2]%nat), [true; true; false])
   /\ Tape.symbols (Tape.mk [1; 2]%nat) [true; true; false] = [true; false])
  /\ exists h', Tape.from_pattern "xao" [] = (Raise ValueError, h').
Proof.
  split.
  - apply (proj1 (from_pattern_accepts_marks_only "xo" [true])). reflexivity.
  - apply (proj2 (from_pattern_accepts_marks_only "xao" [])). reflexivity.
Defined.

(** X2: round trip. Writing a list of symbols as a pattern ([x] for True,
    [o] for False) and building a Tape from it never raises, and the Tape
    reads back as that list. *)
Theorem from_pattern_of_marks (l : list bool) (h : list bool) :
  exists tp h',
    Tape.from_pattern (marks l) h = (Ok tp, h')
    /\ Tape.symbols tp h' = l
    /\ Tape.len tp = Z.of_nat (length l).
Proof.
  destruct (from_pattern_accepts_marks_only_aux (marks l) h) as [Hok _].
  destruct (Hok (only_marks_marks l)) as [Hf Hs].
  eexists _, _. split; [exact Hf|].
  split; [by rewrite Hs, symbols_of_marks|].
  unfold Tape.len; cbn. by rewrite length_seq, marks_length.
Qed.

Lemma program_subscript_one_based_aux (p : Program.t) (i : Z) :
  (1 <= i <= Z.of_nat (length (Program.states p)) ->
     exists st,
       Program.states p !! Z.to_nat (i - 1) = Some st
       /\ Program.getitem p i = Ok st)
  /\ (i < 1 \/ Z.of_nat (length (Program.states p)) < i ->
      Program.getitem p i = Raise IndexError).
Proof.
  unfold Program.getitem. split; intros Hi.
  - destruct (i <? 1) eqn:E; [lia|].
    apply list_getitem_inside. lia.
  - destruct (i <? 1) eqn:E; [done|].
    apply list_getitem_outside. lia.
Qed.

(** X3: [Program.__getitem__] is 1-based and does not wrap around: it
    returns the state at list position [i - 1] for [1 <= i <= len], and
    raises IndexError for every [i < 1], negative ones included, and for
    every [i > len]. *)
Theorem program_subscript_one_based (p : Program.t) (i : Z) :
  (1 <= i <= Z.of_nat (length (Program.states p)) ->
     exists st,
       Program.states p !! Z.to_nat (i - 1) = Some st
       /\ Program.getitem p i = Ok st)
  /\ (i < 1 \/ Z.of_nat (length (Program.states p)) < i ->
      Program.getitem p i = Raise IndexError).
Proof. apply program_subscript_one_based_aux. Qed.

Lemma program_subscript_one_based_witness :
  (exists st,
     Program.states adder_program !! Z.to_nat (4 - 1) = Some st
     /\ Program.getitem adder_program 4 = Ok st)
  /\ Program.getitem adder_program (-1) = Raise IndexError.
Proof.
  split.
  - apply (proj1 (program_subscript_one_based adder_program 4)).
    simpl. lia.
  - apply (proj2 (program_subscript_one_based adder_program (-1))). lia.
Defined.

Lemma next_returns_or_raises_aux (self : Machine.t) :
  ((exists move self', next self = (Ok move, self'))
   <-> state_i self <> 0
       /\ - Tape.len (tape self) <= square_i self < Tape.len (tape self)
       /\ 1 <= state_i self <= Z.of_nat (length (Program.states (program self))))
  /\ (forall e self',
        next self = (Raise e, self') ->
        self' = self
        /\ (e = StopIteration /\ state_i self = 0
            \/ e = IndexError /\ state_i self <> 0
               /\ (Tape.getitem (tape self) (square_i self) = Raise IndexError
                   \/ Program.getitem (program self) (state_i self)
                      = Raise IndexError))).
Proof.
  assert ((square_i self < - Tape.len (tape self)
           \/ Tape.len (tape self) <= square_i self ->
           Tape.getitem (tape self) (square_i self) = Raise IndexError)
          /\ (- Tape.len (tape self) <= square_i self < Tape.len (tape self) ->
              exists sq, Tape.getitem (tape self) (square_i self) = Ok sq))
    as [Tout Tin].
  { unfold Tape.len, Tape.getitem. split.
    - apply list_getitem_outside.
    - intros Hi. destruct (decide (square_i self < 0)).
      + destruct (list_getitem_from_end (Tape.squares (tape self))
                    (square_i self)) as (sq & _ & Hsq); [lia|by exists sq].
      + destruct (list_getitem_inside (Tape.squares (tape self))
                    (square_i self)) as (sq & _ & Hsq); [lia|by exists sq]. }
  pose proof (program_subscript_one_based_aux (program self) (state_i self))
    as [Pin Pout].
  split; [split|].
  - intros (move & self' & Hn).
    apply next_Ok_inv in Hn as (sq & b & Hs & Hsq & Hl & _).
    rewrite looked_up_eq, Hsq in Hl.
    destruct (Program.getitem _ _) as [st|] eqn:Hst; [|done].
    split; [done|]. split.
    + destruct (decide (- Tape.len (tape self) <= square_i self
                        < Tape.len (tape self))) as [|Hout]; [done|].
      rewrite Tout in Hsq by lia. discriminate Hsq.
    + destruct (decide (1 <= state_i self
                        <= Z.of_nat (length (Program.states (program self)))))
        as [|Hout]; [done|].
      assert (@Ok State.t st = Raise IndexError) as Habs
        by (apply Pout; lia).
      discriminate Habs.
  - intros (Hs & Hi & Hp).
    destruct (Tin Hi) as (sq & Hsq).
    destruct (Pin Hp) as (st & _ & Hst).
    rewrite next_eq, Hsq, Hst.
    destruct (state_i self =? 0) eqn:E; [lia|]. by eexists _, _.
  - intros e self' Hn.
    apply next_Raise_inv in Hn as [-> Hc]. split; [done|].
    destruct Hc as [?|(-> & Hs & Hl)]; [by left|right].
    split; [done|]. split; [done|].
    rewrite looked_up_eq in Hl.
    destruct (Tape.getitem _ _) as [sq|e] eqn:Hsq.
    + destruct (Program.getitem _ _) as [st|e] eqn:Hst; [done|].
      right. f_equal. unfold Program.getitem in Hst.
      destruct (_ <? 1); [congruence|]. by eapply list_getitem_raises.
    + left. f_equal. by eapply list_getitem_raises.
Qed.

(** X4: [__next__] returns a Move exactly when the state index is not 0,
    the head position is one the tape subscript accepts
    ([-len <= square_i < len]) and the state index is one the program
    subscript accepts ([1 <= state_i <= number of states]). When it
    raises, it raises StopIteration (state index 0) or IndexError (one of
    the two subscripts), never anything else, and the machine, its
    configuration included, is what it was. *)
Theorem next_returns_or_raises (self : Machine.t) :
  ((exists move self', next self = (Ok move, self'))
   <-> state_i self <> 0
       /\ - Tape.len (tape self) <= square_i self < Tape.len (tape self)
       /\ 1 <= state_i self <= Z.of_nat (length (Program.states (program self))))
  /\ (forall e self',
        next self = (Raise e, self') ->
        self' = self
        /\ (e = StopIteration /\ state_i self = 0
            \/ e = IndexError /\ state_i self <> 0
               /\ (Tape.getitem (tape self) (square_i self) = Raise IndexError
                   \/ Program.getitem (program self) (state_i self)
                      = Raise IndexError))).
Proof. apply next_returns_or_raises_aux. Qed.

Lemma next_returns_or_raises_witness :
  let self := Machine.mk [true; false] (Tape.mk [0; 1]%nat) adder_program
                         (-1) 2 None in
  (exists move self', next self = (Ok move, self'))
  /\ let stuck := Machine.mk [true] (Tape.mk [0]%nat) adder_program 0 5 None in
     Tape.getitem (tape stuck) (square_i stuck) = Raise IndexError
     \/ Program.getitem (program stuck) (state_i stuck) = Raise IndexError.
Proof.
  intros self. split.
  - apply (proj1 (next_returns_or_raises self)).
    unfold Tape.len; simpl. lia.
  - intros stuck.
    destruct (proj2 (next_returns_or_raises stuck) IndexError stuck)
      as [_ [[H _]|(_ & _ & H)]]; [reflexivity|discriminate H|exact H].
Defined.

(** X5: the three methods that use the configuration need [scan] to have
    run first. On a machine that has no configuration, as a new machine
    and a rewound one have, [stamp], [change_square] and [change_state]
    raise AttributeError and change nothing; after a [scan] that returned
    none of them raises AttributeError. *)
Theorem methods_need_a_scan (self : Machine.t) :
  (configuration self = None ->
     stamp self = (Raise AttributeError, self)
     /\ change_square self = (Raise AttributeError, self)
     /\ change_state self = (Raise AttributeError, self))
  /\ (let rewound := snd (rewind self) in
      stamp rewound = (Raise AttributeError, rewound)
      /\ change_square rewound = (Raise AttributeError, rewound)
      /\ change_state rewound = (Raise AttributeError, rewound))
  /\ (forall scanned,
        scan self = (Ok tt, scanned) ->
        fst (stamp scanned) = Ok tt
        /\ fst (change_square scanned) = Ok tt
        /\ fst (change_state scanned) = Ok tt).
Proof.
  assert (forall m, configuration m = None ->
            stamp m = (Raise AttributeError, m)
            /\ change_square m = (Raise AttributeError, m)
            /\ change_state m = (Raise AttributeError, m)) as Hnone.
  { intros m Hc. unfold_methods. by rewrite Hc. }
  split; [apply Hnone|]. split.
  - cbn. apply Hnone. by rewrite rewind_eq.
  - intros scanned Hs. rewrite scan_eq in Hs.
    destruct (Tape.getitem (tape self) (square_i self)) as [sq|] eqn:Hsq;
      [|done].
    destruct (Program.getitem _ _) as [st|]; [|done].
    inversion Hs; subst; clear Hs.
    unfold_methods; cbn. rewrite Hsq; cbn.
    split; [done|]. split; [|done].
    by repeat case_match.
Qed.

Lemma methods_need_a_scan_witness :
  let self := Machine.init [true] (Tape.mk [0%nat]) adder_program in
  stamp self = (Raise AttributeError, self)
  /\ fst (stamp (snd (scan self))) = Ok tt.
Proof.
  intros self.
  destruct (methods_need_a_scan self) as (Hnone & _ & Hscan).
  split.
  - apply Hnone. reflexivity.
  - apply (Hscan (snd (scan self))). reflexivity.
Defined.

Section Squares.

Lemma own_squares_spec (self : Machine.t) :
  own_squares self = true <->
  NoDup (Tape.squares (tape self))
  /\ forall s, s ∈ Tape.squares (tape self) ->
               (s < length (heap_of self))%nat.
Proof.
  unfold own_squares. rewrite andb_true_iff, bool_decide_eq_true.
  rewrite forallb_forall.
  split; intros [Hd Hin]; (split; [done|]); intros s Hs.
  - apply list_elem_of_In, Hin in Hs. by apply Nat.ltb_lt.
  - apply Nat.ltb_lt, Hin. by apply list_elem_of_In.
Qed.

Lemma symbol_set_same (h : list bool) (s : nat) (v : bool) :
  (s < length h)%nat -> Square.symbol (Square.set_symbol h s v) s = v.
Proof.
  intros Hs. unfold Square.symbol, Square.set_symbol.
  by rewrite list_lookup_insert_eq.
Qed.

Lemma symbol_set_other (h : list bool) (s s' : nat) (v : bool) :
  s <> s' -> Square.symbol (Square.set_symbol h s v) s' = Square.symbol h s'.
Proof.
  intros Hs. unfold Square.symbol, Square.set_symbol.
  by rewrite list_lookup_insert_ne.
Qed.

(** With distinct squares, writing the square of cell [k] changes cell
    [k] of the snapshot and no other. *)
Lemma symbols_set_symbol (h : list bool) (sqs : list nat) (k sq : nat)
    (v : bool) :
  NoDup sqs -> sqs !! k = Some sq -> (sq < length h)%nat ->
  map (Square.to_bool (Square.set_symbol h sq v)) sqs
  = <[k := v]> (map (Square.to_bool h) sqs).
Proof.
  intros Hd Hk Hsq. apply list_eq. intros j.
  rewrite list_lookup_fmap.
  destruct (decide (j = k)) as [->|Hjk].
  - rewrite Hk; cbn. rewrite list_lookup_insert_eq.
    + unfold Square.to_bool. by rewrite symbol_set_same.
    + rewrite length_map. by eapply lookup_lt_Some.
  - rewrite list_lookup_insert_ne by done. rewrite list_lookup_fmap.
    destruct (sqs !! j) as [s'|] eqn:Hj; [|done]. cbn.
    unfold Square.to_bool. rewrite symbol_set_other; [done|].
    intros ->. apply Hjk. by eapply NoDup_lookup.
Qed.

Lemma symbols_after_init (h : list bool) (sqs : list nat) :
  map (Square.to_bool (h ++ [false])) sqs = map (Square.to_bool h) sqs.
Proof. apply map_ext. intros s. apply symbol_after_init. Qed.

Lemma step_with_own_squares sq b self :
  own_squares self = true -> own_squares (step_with sq b self) = true.
Proof.
  rewrite !own_squares_spec. intros [Hd Hin].
  assert (length (Square.set_symbol (heap_of self) sq (Behavior.symbol b))
          = length (heap_of self)) as Hlen
    by apply length_insert.
  assert (length (heap_of self) ∉ Tape.squares (tape self)) as Hnew.
  { intros Hs. apply Hin in Hs. lia. }
  unfold step_with. rewrite Hlen.
  repeat case_match; cbn; rewrite ?length_app, ?Hlen; cbn.
  - split.
    + apply NoDup_app. split; [done|]. split; [|apply NoDup_singleton].
      intros s Hs ->%list_elem_of_singleton. by apply Hnew.
    + intros s [Hs| ->%list_elem_of_singleton]%elem_of_app;
        [apply Hin in Hs|]; lia.
  - done.
  - split.
    + by apply NoDup_cons.
    + intros s [->|Hs]%elem_of_cons; [|apply Hin in Hs]; lia.
  - done.
Qed.

Lemma after_own_squares (n : nat) : forall self self',
  after n self = Some self' ->
  own_squares self = true -> own_squares self' = true.
Proof.
  induction n as [|n IH]; intros self self' Ha Ho.
  - by inversion Ha; subst.
  - rewrite after_S in Ha.
    destruct (next self) as [[move|e] self1] eqn:Hn; [|done].
    apply next_Ok_inv in Hn as (sq & b & _ & _ & _ & -> & _).
    eapply IH; [done|]. by apply step_with_own_squares.
Qed.

End Squares.

(** X6: the cells of a machine built by [Machine.from_patterns] hold
    pairwise distinct squares of the store, and a call of [__next__], and
    so a run of any length, keeps it so: the squares that [feed_left] and
    [feed_right] add are new ones, and no step makes two cells share a
    Square. *)
Theorem squares_stay_distinct :
  (forall tape_pattern prog self,
     Machine.from_patterns tape_pattern prog = Ok self ->
     own_squares self = true)
  /\ (forall self,
        own_squares self = true ->
        own_squares (snd (next self)) = true
        /\ forall fuel, own_squares (snd (iterate fuel self)) = true).
Proof.
  split.
  - intros tape_pattern prog self Hf. unfold Machine.from_patterns in Hf.
    destruct (from_pattern_accepts_marks_only_aux tape_pattern [])
      as [Hok Hbad].
    destruct (only_marks tape_pattern) eqn:Hm.
    + destruct (Hok eq_refl) as [Hp _]. rewrite Hp in Hf.
      inversion Hf; subst. apply own_squares_spec; cbn.
      split; [apply NoDup_seq|].
      intros s Hs%elem_of_seq. rewrite symbols_of_length. lia.
    + destruct (Hbad eq_refl) as [h' Hp]. by rewrite Hp in Hf.
  - intros self Ho. split.
    + destruct (next_outcome_next self) as [| |sq b _ _ _ self']; [done..|].
      by apply step_with_own_squares.
    + intros fuel.
      destruct (iterate fuel self) as [[moves e] self'] eqn:Hi.
      apply iterate_after in Hi as [Ha _]. by eapply after_own_squares.
Qed.

Lemma squares_stay_distinct_witness :
  own_squares (Machine.init [true; false] (Tape.mk [0; 1]%nat) adder_program)
    = true
  /\ own_squares (snd (iterate 5 (Machine.init [true; false]
                                    (Tape.mk [0; 1]%nat) adder_program)))
     = true.
Proof.
  destruct squares_stay_distinct as [Hnew Hkeep].
  assert (own_squares (Machine.init [true; false] (Tape.mk [0; 1]%nat)
                                    adder_program) = true) as Ho.
  { apply (Hnew "xo" adder_program). reflexivity. }
  split; [exact Ho|]. apply (proj2 (Hkeep _ Ho) 5%nat).
Defined.

(** X7: [stamp] writes the symbol of the configuration into the Square
    object under the head, and so into every cell of the tape that holds
    that same object, and into no other cell; the tape, the head position
    and the state index stay as they are. *)
Theorem stamp_writes_the_square (self : Machine.t) (b : Behavior.t)
    (sq : nat) :
  configuration self = Some b ->
  Tape.getitem (tape self) (square_i self) = Ok sq ->
  (sq < length (heap_of self))%nat ->
  exists self',
    stamp self = (Ok tt, self')
    /\ tape self' = tape self
    /\ square_i self' = square_i self
    /\ state_i self' = state_i self
    /\ Tape.symbols (tape self') (heap_of self')
       = map (fun s => if decide (s = sq) then Behavior.symbol b
                       else Square.symbol (heap_of self) s)
             (Tape.squares (tape self)).
Proof.
  intros Hc Hsq Hlt. rewrite (stamp_eq _ _ Hc), Hsq.
  eexists. split; [reflexivity|]. cbn. repeat (split; [done|]).
  unfold Tape.symbols, Square.to_bool. apply map_ext. intros s.
  destruct (decide (s = sq)) as [->|Hne].
  - by apply symbol_set_same.
  - by apply symbol_set_other.
Qed.

Lemma stamp_writes_the_square_witness :
  let self := Machine.mk [false; false] (Tape.mk [0; 1; 0]%nat) adder_program
                         0 1 (Some (B true true 2)) in
  exists self',
    stamp self = (Ok tt, self')
    /\ tape self' = tape self
    /\ square_i self' = 0
    /\ state_i self' = 1
    /\ Tape.symbols (tape self') (heap_of self') = [true; false; true].
Proof.
  intros self.
  apply (stamp_writes_the_square self (B true true 2) 0%nat);
    [reflexivity|reflexivity|simpl; lia].
Defined.

Lemma move_symbols_of_a_step_aux (self self' : Machine.t) (move : Move.t) :
  own_squares self = true ->
  head_in_range self = true ->
  next self = (Ok move, self') ->
  exists st v,
    Program.getitem (program self) (state_i self) = Ok st
    /\ Tape.symbols (tape self) (heap_of self) !! Z.to_nat (square_i self)
       = Some v
    /\ looked_up self = Some (State.getitem st v)
    /\ Move.symbols move
       = written_and_fed (Tape.symbols (tape self) (heap_of self))
                         (square_i self)
                         (Behavior.symbol (State.getitem st v))
                         (Behavior.goes_right (State.getitem st v))
    /\ Tape.symbols (tape self') (heap_of self') = Move.symbols move.
Proof.
  intros Ho Hh Hn.
  apply own_squares_spec in Ho as [Hd Hin].
  apply move_fields in Hn as Hm. destruct Hm as (Hsym & _).
  apply next_Ok_inv in Hn as (sq & b & _ & Hsq & Hl & -> & _).
  unfold head_in_range, Tape.len in Hh.
  destruct (list_getitem_inside (Tape.squares (tape self)) (square_i self))
    as (sq' & Hk & Hsq'); [lia|].
  unfold Tape.getitem in Hsq. rewrite Hsq' in Hsq. injection Hsq as ->.
  rewrite looked_up_eq in Hl. unfold Tape.getitem in Hl. rewrite Hsq' in Hl.
  destruct (Program.getitem _ _) as [st|] eqn:Hst; [|done].
  injection Hl as <-.
  exists st, (Square.symbol (heap_of self) sq).
  split; [done|]. split.
  { unfold Tape.symbols. by rewrite list_lookup_fmap, Hk. }
  split.
  { rewrite looked_up_eq. unfold Tape.getitem. by rewrite Hsq', Hst. }
  split; [|done]. rewrite Hsym.
  set (b := State.getitem st _).
  assert (sq < length (heap_of self))%nat as Hlt.
  { apply Hin. by eapply list_elem_of_lookup_2. }
  unfold written_and_fed, step_with, Tape.symbols, Tape.len.
  rewrite length_map.
  repeat case_match; cbn [tape heap_of Tape.squares].
  - rewrite map_app, symbols_after_init; cbn.
    rewrite (symbols_set_symbol _ _ _ _ _ Hd Hk Hlt). f_equal. f_equal.
    apply (symbol_of_new (Square.set_symbol (heap_of self) sq
                                            (Behavior.symbol b)) false).
  - by apply symbols_set_symbol.
  - cbn. rewrite symbols_after_init.
    rewrite (symbols_set_symbol _ _ _ _ _ Hd Hk Hlt). f_equal.
    apply (symbol_of_new (Square.set_symbol (heap_of self) sq
                                            (Behavior.symbol b)) false).
  - by apply symbols_set_symbol.
Qed.

(** X8: for a machine whose cells hold distinct squares and whose head is
    in range, the snapshot in the Move of a step is the snapshot before
    the step with the symbol of the looked-up Behavior written at the
    head position (whatever was there), then one blank added in front
    after a left move from square 0, or at the end after a right move
    from the last square; the Behavior is the one the program has for the
    current state and the symbol that was under the head; and the
    snapshot is that of the tape the step leaves. *)
Theorem move_symbols_of_a_step (self self' : Machine.t) (move : Move.t) :
  own_squares self = true ->
  head_in_range self = true ->
  next self = (Ok move, self') ->
  exists st v,
    Program.getitem (program self) (state_i self) = Ok st
    /\ Tape.symbols (tape self) (heap_of self) !! Z.to_nat (square_i self)
       = Some v
    /\ looked_up self = Some (State.getitem st v)
    /\ Move.symbols move
       = written_and_fed (Tape.symbols (tape self) (heap_of self))
                         (square_i self)
                         (Behavior.symbol (State.getitem st v))
                         (Behavior.goes_right (State.getitem st v))
    /\ Tape.symbols (tape self') (heap_of self') = Move.symbols move.
Proof. apply move_symbols_of_a_step_aux. Qed.

Lemma move_symbols_of_a_step_witness :
  let self := Machine.init [true; false] (Tape.mk [0; 1]%nat) adder_program in
  exists st v,
    Program.getitem (program self) (state_i self) = Ok st
    /\ Tape.symbols (tape self) (heap_of self) !! Z.to_nat (square_i self)
       = Some v
    /\ looked_up self = Some (State.getitem st v)
    /\ Move.symbols (Move.init [false; false] 0 1 1 2)
       = written_and_fed (Tape.symbols (tape self) (heap_of self))
                         (square_i self)
                         (Behavior.symbol (State.getitem st v))
                         (Behavior.goes_right (State.getitem st v))
    /\ Tape.symbols (tape (snd (next self))) (heap_of (snd (next self)))
       = Move.symbols (Move.init [false; false] 0 1 1 2).
Proof.
  intros self.
  apply (move_symbols_of_a_step self (snd (next self))
           (Move.init [false; false] 0 1 1 2)); reflexivity.
Defined.

Section Runs.

Lemma list_getitem_elem {A} (l : list A) (i : Z) (a : A) :
  list_getitem l i = Ok a -> a ∈ l.
Proof.
  unfold list_getitem.
  destruct (_ || _); [done|].
  destruct (l !! _) as [a'|] eqn:Ha; [|done].
  intros [= <-]. by eapply list_elem_of_lookup_2.
Qed.

Lemma looked_up_in_program (self : Machine.t) (b : Behavior.t) :
  looked_up self = Some b ->
  exists st, st ∈ Program.states (program self)
             /\ (b = State.when_false st \/ b = State.when_true st).
Proof.
  rewrite looked_up_eq.
  destruct (Tape.getitem _ _) as [sq|]; [|done].
  destruct (Program.getitem _ _) as [st|] eqn:Hst; [|done].
  intros [= <-]. exists st. split.
  - unfold Program.getitem in Hst. destruct (_ <? 1); [done|].
    by eapply list_getitem_elem.
  - unfold State.getitem. destruct (Bool.eqb _ _); auto.
Qed.

Lemma well_formed_looked_up (self : Machine.t) (b : Behavior.t) :
  well_formed (program self) = true ->
  looked_up self = Some b ->
  goes_to_a_state (program self) b = true.
Proof.
  intros Hw Hl. apply looked_up_in_program in Hl as (st & Hst & Hb).
  unfold well_formed in Hw. rewrite forallb_forall in Hw.
  apply list_elem_of_In, Hw, andb_prop in Hst as [Hf Ht].
  by destruct Hb as [->| ->].
Qed.

Lemma runs_safely_next (self : Machine.t) :
  runs_safely self ->
  (state_i self = 0 /\ next self = (Raise StopIteration, self))
  \/ (state_i self <> 0
      /\ exists move self',
           next self = (Ok move, self') /\ runs_safely self').
Proof.
  intros (Hw & Hs & Hh).
  destruct (decide (state_i self = 0)) as [H0|H0].
  { left. split; [done|]. by rewrite next_eq, H0. }
  right. split; [done|].
  destruct (proj1 (next_returns_or_raises_aux self)) as [_ Hret].
  destruct Hret as (move & self' & Hn).
  { unfold state_in_table, head_in_range in *. lia. }
  exists move, self'. split; [done|].
  apply next_Ok_inv in Hn as (sq & b & _ & _ & Hl & -> & _).
  pose proof (well_formed_looked_up _ _ Hw Hl) as Hb.
  split; [by rewrite step_with_program|]. split.
  - unfold state_in_table.
    by rewrite step_with_program, step_with_state_i.
  - by apply step_with_head_in_range.
Qed.

Lemma runs_safely_iterate (fuel : nat) : forall self moves e self',
  runs_safely self ->
  iterate fuel self = (moves, e, self') ->
  (e = Exhausted \/ e = OutOfFuel) /\ runs_safely self'.
Proof.
  induction fuel as [|fuel IH]; intros self moves e self' Hr Hi; cbn in Hi.
  - inversion Hi; subst. auto.
  - destruct (runs_safely_next self Hr)
      as [[_ Hn]|(_ & move & self1 & Hn & Hr1)]; rewrite Hn in Hi.
    + inversion Hi; subst. auto.
    + destruct (iterate fuel self1) as [[moves1 e1] self2] eqn:Hi1.
      inversion Hi; subst. by eapply IH.
Qed.

(** The Move at position [k] of a run is the Move of the step taken by
    the machine after [k] steps. *)
Lemma iterate_lookup (fuel : nat) : forall self moves e self' k move,
  iterate fuel self = (moves, e, self') ->
  moves !! k = Some move ->
  exists self_k self_k',
    after k self = Some self_k
    /\ next self_k = (Ok move, self_k')
    /\ after (S k) self = Some self_k'.
Proof.
  induction fuel as [|fuel IH]; intros self moves e self' k move Hi Hk;
    cbn in Hi.
  - by inversion Hi; subst.
  - destruct (next self) as [[move1|e1] self1] eqn:Hn.
    + destruct (iterate fuel self1) as [[moves1 e2] self2] eqn:Hi1.
      inversion Hi; subst. destruct k as [|k]; cbn in Hk.
      * inversion Hk; subst. exists self, self1.
        split; [done|]. split; [done|]. by rewrite after_S, Hn.
      * destruct (IH _ _ _ _ _ _ Hi1 Hk) as (sk & sk' & Ha & Hn' & Ha').
        exists sk, sk'. rewrite after_S, Hn. split; [done|].
        split; [done|]. by rewrite after_S, Hn.
    + destruct e1; by inversion Hi; subst.
Qed.


End Runs.

(** X9: with a well-formed table (every Behavior goes to state 0 or to a
    state of the program), a state index that is 0 or a state of the
    program and a head in range, no call of [__next__] raises IndexError:
    a run of any length ends by exhaustion or is still going, and the
    three conditions hold of the machine it leaves. A machine built from
    a pattern of at least one mark and a well-formed program of at least
    one state starts that way. *)
Theorem well_formed_runs_do_not_raise :
  (forall self fuel moves e self',
     well_formed (program self) = true ->
     state_in_table self = true ->
     head_in_range self = true ->
     iterate fuel self = (moves, e, self') ->
     (e = Exhausted \/ e = OutOfFuel)
     /\ well_formed (program self') = true
     /\ state_in_table self' = true
     /\ head_in_range self' = true)
  /\ (forall tape_pattern prog self,
        Machine.from_patterns tape_pattern prog = Ok self ->
        tape_pattern <> "" ->
        Program.states prog <> [] ->
        well_formed prog = true ->
        well_formed (program self) = true
        /\ state_in_table self = true
        /\ head_in_range self = true).
Proof.
  split.
  - intros self fuel moves e self' Hw Hs Hh Hi.
    by apply (runs_safely_iterate fuel self moves e self').
  - intros tape_pattern prog self Hf Hp Hst Hw.
    unfold Machine.from_patterns in Hf.
    destruct (Tape.from_pattern tape_pattern []) as [[tp|] h] eqn:Ht; [|done].
    inversion Hf; subst; clear Hf.
    assert (Tape.len tp = Z.of_nat (String.length tape_pattern)) as Hlen.
    { unfold Tape.from_pattern in Ht.
      destruct (Tape.squares_from_pattern tape_pattern [])
        as [[l|] h1] eqn:Hl; [|done].
      inversion Ht; subst. unfold Tape.len, Tape.init; cbn.
      f_equal. by eapply squares_from_pattern_length. }
    clear Ht. rename Hlen into Ht. split; [done|]. split.
    + unfold state_in_table, Machine.init. cbn [state_i program].
      destruct (Program.states prog) as [|st sts]; [done|].
      rewrite length_cons, andb_true_iff, !Z.leb_le. lia.
    + unfold head_in_range, Machine.init. cbn [square_i tape]. rewrite Ht.
      destruct tape_pattern; [done|]. cbn [String.length].
      rewrite andb_true_iff, Z.leb_le, Z.ltb_lt. lia.
Qed.

Lemma well_formed_runs_do_not_raise_witness :
  let self := Machine.init [true; true; false; true; true]
                (Tape.mk [0; 1; 2; 3; 4]%nat) adder_program in
  (snd (fst (iterate 3 self)) = Exhausted
   \/ snd (fst (iterate 3 self)) = OutOfFuel)
  /\ well_formed (program (snd (iterate 3 self))) = true
  /\ state_in_table (snd (iterate 3 self)) = true
  /\ head_in_range (snd (iterate 3 self)) = true.
Proof.
  intros self.
  destruct (proj2 well_formed_runs_do_not_raise "xxoxx" adder_program self)
    as (Hw & Hs & Hh); [reflexivity|discriminate|discriminate|reflexivity|].
  apply (proj1 well_formed_runs_do_not_raise self 3%nat
           (fst (fst (iterate 3 self)))); [exact Hw|exact Hs|exact Hh|].
  reflexivity.
Defined.



Section Trace.

Lemma iterate_last_step (fuel : nat) (self self' : Machine.t)
    (moves : list Move.t) (e : ending) (move : Move.t) :
  iterate fuel self = (moves, e, self') ->
  last moves = Some move ->
  exists self_p, next self_p = (Ok move, self').
Proof.
  intros Hi Hl.
  pose proof (iterate_after _ _ _ _ _ Hi) as [Ha _].
  rewrite last_lookup in Hl.
  destruct (iterate_lookup _ _ _ _ _ _ _ Hi Hl) as (sp & sp' & _ & Hn & Ha').
  assert (S (Nat.pred (length moves)) = length moves) as Hlen.
  { apply lookup_lt_Some in Hl. lia. }
  rewrite Hlen, Ha in Ha'. injection Ha' as <-. by exists sp.
Qed.

(** The squares of the tape after a step: those before it, with one new
    square in front or at the end when the step fed the tape. *)
Lemma step_with_squares sq b self :
  exists pre post,
    Tape.squares (tape (step_with sq b self))
    = pre ++ Tape.squares (tape self) ++ post
    /\ (length pre + length post <= 1)%nat
    /\ (forall s, s ∈ pre ++ post -> s = length (heap_of self))
    /\ (length (heap_of self) <= length (heap_of (step_with sq b self))
        <= length (heap_of self) + 1)%nat.
Proof.
  assert (length (Square.set_symbol (heap_of self) sq (Behavior.symbol b))
          = length (heap_of self)) as Hlen
    by apply length_insert.
  unfold step_with. rewrite Hlen.
  repeat case_match; cbn [tape heap_of Tape.squares].
  - exists [], [length (heap_of self)]. cbn.
    rewrite length_app, Hlen. cbn.
    repeat split; [lia|by intros s ->%list_elem_of_singleton|lia..].
  - exists [], []. cbn. rewrite app_nil_r, Hlen.
    repeat split; [lia|by intros s ?%elem_of_nil|lia..].
  - exists [length (heap_of self)], []. cbn.
    rewrite app_nil_r, length_app, Hlen. cbn.
    repeat split; [lia|by intros s ->%list_elem_of_singleton|lia..].
  - exists [], []. cbn. rewrite app_nil_r, Hlen.
    repeat split; [lia|by intros s ?%elem_of_nil|lia..].
Qed.

Lemma after_squares (n : nat) : forall self self',
  after n self = Some self' ->
  exists pre post,
    Tape.squares (tape self') = pre ++ Tape.squares (tape self) ++ post
    /\ (length pre + length post <= n)%nat
    /\ (forall s, s ∈ pre ++ post -> (length (heap_of self) <= s)%nat)
    /\ (length (heap_of self) <= length (heap_of self'))%nat
    /\ program self' = program self.
Proof.
  induction n as [|n IH]; intros self self' Ha.
  - inversion Ha; subst. exists [], []. cbn. rewrite app_nil_r.
    repeat split; [lia|by intros s ?%elem_of_nil|lia].
  - rewrite after_S in Ha.
    destruct (next self) as [[move|e] self1] eqn:Hn; [|done].
    apply next_Ok_inv in Hn as (sq & b & _ & _ & _ & -> & _).
    destruct (IH _ _ Ha) as (pre & post & Hsq & Hlen & Hnew & Hh & Hp).
    destruct (step_with_squares sq b self)
      as (pre1 & post1 & Hsq1 & Hlen1 & Hnew1 & Hh1).
    exists (pre ++ pre1), (post1 ++ post).
    rewrite Hsq, Hsq1, step_with_program in *.
    split; [by rewrite <- !app_assoc|].
    split; [rewrite !length_app; lia|].
    split; [|split; [lia|done]].
    intros s Hs.
    rewrite !elem_of_app in Hs.
    destruct Hs as [[Hs|Hs]|[Hs|Hs]].
    + assert (s ∈ pre ++ post) as Hin by (apply elem_of_app; by left).
      apply Hnew in Hin. lia.
    + rewrite (Hnew1 s); [lia|]. apply elem_of_app. by left.
    + rewrite (Hnew1 s); [lia|]. apply elem_of_app. by right.
    + assert (s ∈ pre ++ post) as Hin by (apply elem_of_app; by right).
      apply Hnew in Hin. lia.
Qed.

End Trace.

(** X11: the Moves of a run are in execution order and chain. The Move at
    position [k] is the one returned by [__next__] on the machine after
    [k] steps; the first Move starts at the head position of the machine;
    each Move starts at the square the one before it ended on, with a
    snapshot as long as that one's or one cell longer; and the last Move
    ends on the head position of the machine the run leaves and carries
    the snapshot of its tape. *)
Theorem moves_are_in_execution_order (fuel : nat) (self self' : Machine.t)
    (moves : list Move.t) (e : ending) :
  iterate fuel self = (moves, e, self') ->
  (forall k move,
     moves !! k = Some move ->
     exists self_k self_k',
       after k self = Some self_k /\ next self_k = (Ok move, self_k'))
  /\ (forall move,
        head moves = Some move -> Move.from_square_i move = square_i self)
  /\ (forall k m1 m2,
        moves !! k = Some m1 ->
        moves !! S k = Some m2 ->
        Move.from_square_i m2 = Move.to_square_i m1
        /\ (length (Move.symbols m1) <= length (Move.symbols m2)
            <= length (Move.symbols m1) + 1)%nat)
  /\ (forall move,
        last moves = Some move ->
        Move.to_square_i move = square_i self'
        /\ Move.symbols move = Tape.symbols (tape self') (heap_of self')).
Proof.
  intros Hi. split; [|split; [|split]].
  - intros k move Hk.
    destruct (iterate_lookup _ _ _ _ _ _ _ Hi Hk) as (sk & sk' & Ha & Hn & _).
    by exists sk, sk'.
  - intros move Hh. rewrite head_lookup in Hh.
    destruct (iterate_lookup _ _ _ _ _ _ _ Hi Hh) as (sk & sk' & Ha & Hn & _).
    inversion Ha; subst.
    by apply move_fields in Hn as (_ & ? & _).
  - intros k m1 m2 H1 H2.
    destruct (iterate_lookup _ _ _ _ _ _ _ Hi H1) as (s1 & s1' & _ & Hn1 & Ha1).
    destruct (iterate_lookup _ _ _ _ _ _ _ Hi H2) as (s2 & s2' & Ha2 & Hn2 & _).
    rewrite Ha1 in Ha2. injection Ha2 as <-.
    apply move_fields in Hn1 as (Hs1 & _ & Ht1 & _).
    apply move_fields in Hn2 as Hf2. destruct Hf2 as (Hs2 & Hf2 & _).
    split; [congruence|].
    apply next_Ok_inv in Hn2 as (sq & b & _ & _ & _ & -> & _).
    rewrite Hs1, Hs2. unfold Tape.symbols. rewrite !length_map.
    pose proof (step_with_len sq b s1') as Hl. unfold Tape.len in Hl.
    repeat case_match; lia.
  - intros move Hl.
    destruct (iterate_last_step _ _ _ _ _ _ Hi Hl) as (sp & Hn).
    by apply move_fields in Hn as (? & _ & ? & _).
Qed.

Lemma moves_are_in_execution_order_witness :
  let self := Machine.init [true; true; false; true; true]
                (Tape.mk [0; 1; 2; 3; 4]%nat) adder_program in
  Move.from_square_i (Move.init [false; true; true; true; true] 2 1 2 3)
  = Move.to_square_i (Move.init [false; true; false; true; true] 1 2 2 2)
  /\ (length (Move.symbols
                (Move.init [false; true; false; true; true] 1 2 2 2))
      <= length (Move.symbols
                   (Move.init [false; true; true; true; true] 2 1 2 3))
      <= length (Move.symbols
                   (Move.init [false; true; false; true; true] 1 2 2 2)) + 1)%nat.
Proof.
  intros self.
  destruct (moves_are_in_execution_order 10 self (snd (iterate 10 self))
              (fst (fst (iterate 10 self))) Exhausted eq_refl)
    as (_ & _ & Hchain & _).
  apply (Hchain 1%nat); reflexivity.
Defined.

(** X12: a run changes the tape at its two ends only. After [n] steps the
    list of squares is the list before the run with new squares put in
    front of it and after it, at most [n] of them in all, none of which
    was in the store before; the squares already there keep their order;
    the store has not shrunk, and the program is the one the run started
    with. *)
Theorem tape_grows_at_its_ends (n : nat) (self self' : Machine.t) :
  after n self = Some self' ->
  exists pre post,
    Tape.squares (tape self') = pre ++ Tape.squares (tape self) ++ post
    /\ (length pre + length post <= n)%nat
    /\ (forall s, s ∈ pre ++ post -> (length (heap_of self) <= s)%nat)
    /\ (length (heap_of self) <= length (heap_of self'))%nat
    /\ program self' = program self.
Proof. apply after_squares. Qed.

Lemma tape_grows_at_its_ends_witness :
  let self := Machine.init [false] (Tape.mk [0%nat])
                (Program.mk [State.mk (B true false 1) (B true true 1)]) in
  exists pre post,
    Tape.squares (tape (snd (iterate 3 self)))
    = pre ++ Tape.squares (tape self) ++ post
    /\ (length pre + length post <= 3)%nat
    /\ (forall s, s ∈ pre ++ post -> (length (heap_of self) <= s)%nat)
    /\ (length (heap_of self) <= length (heap_of (snd (iterate 3 self))))%nat
    /\ program (snd (iterate 3 self)) = program self.
Proof.
  intros self.
  apply (tape_grows_at_its_ends 3 self (snd (iterate 3 self))). reflexivity.
Defined.

Lemma iterate_Raised (fuel : nat) : forall self moves e self',
  iterate fuel self = (moves, Raised e, self') ->
  e = IndexError /\ looked_up self' = None /\ state_i self' <> 0.
Proof.
  induction fuel as [|fuel IH]; intros self moves e self' Hi; cbn in Hi;
    [done|].
  destruct (next self) as [[move1|e1] self1] eqn:Hn.
  - destruct (iterate fuel self1) as [[moves1 e2] self2] eqn:Hi1.
    inversion Hi; subst. by eapply IH.
  - apply next_Raise_inv in Hn as [-> [[-> Hs]|(-> & Hs & Hl)]];
      by inversion Hi; subst.
Qed.

(** X13: [operate] replaces the recorded Moves by those of the run it
    makes. When the run ends by exhaustion the machine is left halted, so
    an [operate] that follows without a [rewind] records no Move at all;
    when the run raises, the exception is IndexError and the Moves
    recorded before stay, those of the failed run being lost. *)
Theorem operate_records_the_run (fuel : nat) (self : Operator.t) :
  (forall self',
     Operator.operate fuel self = Some (Ok tt, self') ->
     Machine.iterate fuel (Operator.machine self)
     = (Operator.moves self', Exhausted, Operator.machine self')
     /\ state_i (Operator.machine self') = 0
     /\ forall fuel',
          Operator.operate (S fuel') self'
          = Some (Ok tt, Operator.mk (Operator.machine self') []))
  /\ (forall e self',
        Operator.operate fuel self = Some (Raise e, self') ->
        e = IndexError /\ Operator.moves self' = Operator.moves self).
Proof.
  unfold Operator.operate.
  destruct (iterate fuel (Operator.machine self)) as [[moves e] m'] eqn:Hi.
  split.
  - intros self' Ho. destruct e; [|done..].
    inversion Ho; subst; clear Ho.
    cbn [Operator.machine Operator.moves]. split; [done|].
    apply iterate_Exhausted_halted in Hi. split; [done|].
    intros fuel'. cbn [iterate]. by rewrite next_eq, Hi.
  - intros e0 self' Ho. destruct e; [done| |done].
    inversion Ho; subst; clear Ho. cbn. split; [|done].
    by apply iterate_Raised in Hi as [? _].
Qed.

Lemma operate_records_the_run_witness :
  let self := Operator.init
                (Machine.init [true; true; false; true; true]
                   (Tape.mk [0; 1; 2; 3; 4]%nat) adder_program) in
  let self' := Operator.mk (snd (iterate 9 (Operator.machine self)))
                           (fst (fst (iterate 9 (Operator.machine self)))) in
  (length (Operator.moves self') = 6%nat
   /\ state_i (Operator.machine self') = 0
   /\ Operator.operate 9 self'
      = Some (Ok tt, Operator.mk (Operator.machine self') []))
  /\ let broken := Operator.mk (Machine.init [] (Tape.mk []) adder_program)
                               (Operator.moves self') in
     Operator.moves broken = Operator.moves self'.
Proof.
  intros self self'. split.
  - destruct (proj1 (operate_records_the_run 9 self) self')
      as (_ & Hs & Hagain); [reflexivity|].
    split; [reflexivity|]. split; [exact Hs|]. apply (Hagain 8%nat).
  - intros broken.
    destruct (proj2 (operate_records_the_run 9 broken) IndexError broken)
      as [_ Hm]; [reflexivity|exact Hm].
Defined.

Section Rows.

Lemma row_cells_eq (is_fancy : bool) (symbols : list bool) :
  row_cells is_fancy symbols
  = sep is_fancy :: flat_map (fun s => [mark s; sep is_fancy]) symbols.
Proof.
  unfold row_cells.
  assert (forall l row,
            fold_left (fun row symbol =>
                         (row ++ [mark symbol]) ++ [sep is_fancy]) l row
            = row ++ flat_map (fun s => [mark s; sep is_fancy]) l) as H.
  { induction l as [|v l IH]; intros row; cbn.
    - by rewrite app_nil_r.
    - rewrite IH. by rewrite <- !app_assoc. }
  apply (H symbols [sep is_fancy]).
Qed.

Lemma row_cells_length (is_fancy : bool) (symbols : list bool) :
  length (row_cells is_fancy symbols) = (2 * length symbols + 1)%nat.
Proof.
  rewrite row_cells_eq. cbn.
  induction symbols as [|v l IH]; cbn; lia.
Qed.

Lemma list_setitem_Ok {A} (l : list A) (i : Z) (v : A) :
  - Z.of_nat (length l) <= i < Z.of_nat (length l) ->
  list_setitem l i v
  = Ok (<[Z.to_nat (if i <? 0 then i + Z.of_nat (length l) else i) := v]> l).
Proof.
  intros Hi. unfold list_setitem.
  destruct (i <? 0) eqn:E;
    destruct (_ || _) eqn:E2; try done; lia.
Qed.

Lemma list_setitem_Raise {A} (l : list A) (i : Z) (v : A) :
  i < - Z.of_nat (length l) \/ Z.of_nat (length l) <= i ->
  list_setitem l i v = Raise IndexError.
Proof.
  intros Hi. unfold list_setitem.
  destruct (i <? 0) eqn:E;
    destruct (_ || _) eqn:E2; try done; lia.
Qed.

Lemma string_length_app (s1 s2 : string) :
  String.length (s1 +:+ s2) = (String.length s1 + String.length s2)%nat.
Proof.
  induction s1 as [|c s1 IH]; [done|].
  change (S (String.length (s1 +:+ s2))
          = S (String.length s1 + String.length s2)).
  by rewrite IH.
Qed.

(** The text of a row without box-drawing characters has one byte per
    cell. *)
Lemma plain_row_length (row : list string) :
  Forall (fun c => String.length c = 1%nat) row ->
  String.length (String.concat "" row) = length row.
Proof.
  induction 1 as [|c row Hc Hrow IH]; [done|].
  cbn [String.concat]. destruct row as [|c' row'].
  - by rewrite Hc.
  - rewrite !string_length_app, Hc, IH. done.
Qed.

End Rows.

Section RowsOfMoves.

Lemma to_table_row_inside (move : Move.t) (is_fancy : bool) :
  0 <= Move.from_square_i move < Z.of_nat (length (Move.symbols move)) ->
  to_table_row move true is_fancy
  = Ok (String.concat ""
          (<[Z.to_nat (Move.from_square_i move * 2 + 2)
               := pointer_right is_fancy]>
             (<[Z.to_nat (Move.from_square_i move * 2)
                  := pointer_left is_fancy]>
                (row_cells is_fancy (Move.symbols move))))).
Proof.
  intros Hf. unfold to_table_row.
  pose proof (row_cells_length is_fancy (Move.symbols move)) as Hlen.
  rewrite list_setitem_Ok by lia.
  rewrite list_setitem_Ok by (rewrite length_insert; lia).
  destruct (_ * 2 <? 0) eqn:E1; [lia|].
  destruct (_ * 2 + 2 <? 0) eqn:E2; [lia|]. done.
Qed.

Lemma to_table_row_from_end (move : Move.t) (is_fancy : bool) :
  - Z.of_nat (length (Move.symbols move)) <= Move.from_square_i move < 0 ->
  exists text, to_table_row move true is_fancy = Ok text.
Proof.
  intros Hf. unfold to_table_row.
  pose proof (row_cells_length is_fancy (Move.symbols move)) as Hlen.
  rewrite list_setitem_Ok by lia.
  rewrite list_setitem_Ok by (rewrite length_insert; lia).
  by eexists.
Qed.

Lemma to_table_row_outside (move : Move.t) (is_fancy : bool) :
  Move.from_square_i move < - Z.of_nat (length (Move.symbols move))
  \/ Z.of_nat (length (Move.symbols move)) <= Move.from_square_i move ->
  to_table_row move true is_fancy = Raise IndexError.
Proof.
  intros Hf. unfold to_table_row.
  pose proof (row_cells_length is_fancy (Move.symbols move)) as Hlen.
  destruct Hf as [Hf|Hf].
  - by rewrite list_setitem_Raise by lia.
  - destruct (list_setitem _ (_ * 2) _) as [row1|e] eqn:H1.
    + assert (length row1 = length (row_cells is_fancy (Move.symbols move)))
        as Hl1.
      { unfold list_setitem in H1. case_match; [done|].
        injection H1 as <-. apply length_insert. }
      by rewrite list_setitem_Raise by lia.
    + unfold list_setitem in H1. case_match; by simplify_eq.
Qed.

Lemma plain_cells (symbols : list bool) :
  Forall (fun c => String.length c = 1%nat) (row_cells false symbols).
Proof.
  rewrite row_cells_eq. apply Forall_cons. split; [done|].
  induction symbols as [|v l IH]; [done|]. cbn.
  apply Forall_cons. split; [by destruct v|]. by apply Forall_cons.
Qed.

End RowsOfMoves.

(** X14: [Move.to_table_row]. Without the pointer it never raises and
    returns a separator followed by a mark and a separator for each
    symbol. With the pointer it returns a row exactly when
    [-n <= from_square_i < n] for a Move of [n] symbols, and raises
    IndexError otherwise (always for a Move without symbols); for
    [0 <= from_square_i < n] the row is the one without pointer in which
    the separators on both sides of cell [from_square_i] are replaced by
    the two pointer characters. *)
Theorem table_row_of_a_move (move : Move.t) (is_fancy : bool) :
  let n := Z.of_nat (length (Move.symbols move)) in
  let f := Move.from_square_i move in
  let cells :=
    sep is_fancy
      :: flat_map (fun s => [mark s; sep is_fancy]) (Move.symbols move) in
  to_table_row move false is_fancy = Ok (String.concat "" cells)
  /\ (0 <= f < n ->
      to_table_row move true is_fancy
      = Ok (String.concat ""
              (<[Z.to_nat (2 * f + 2) := pointer_right is_fancy]>
                 (<[Z.to_nat (2 * f) := pointer_left is_fancy]> cells))))
  /\ (- n <= f < 0 ->
      exists text, to_table_row move true is_fancy = Ok text)
  /\ (f < - n \/ n <= f -> to_table_row move true is_fancy = Raise IndexError).
Proof.
  intros n f cells. subst n f cells. rewrite <- row_cells_eq.
  split; [done|]. split.
  - intros Hf. rewrite (to_table_row_inside _ _ Hf).
    by rewrite (Z.mul_comm 2).
  - split; [apply to_table_row_from_end|apply to_table_row_outside].
Qed.

Lemma table_row_of_a_move_witness :
  to_table_row (Move.init [false; true] 1 2 1 1) true false = Ok "|o>x|"
  /\ (exists text,
        to_table_row (Move.init [false; true] (-1) 0 1 1) true false = Ok text)
  /\ to_table_row (Move.init [false; true] 2 3 1 1) true false
     = Raise IndexError.
Proof.
  split.
  - apply (proj1 (proj2 (table_row_of_a_move
                           (Move.init [false; true] 1 2 1 1) false))).
    simpl. lia.
  - split.
    + apply (proj1 (proj2 (proj2 (table_row_of_a_move
                (Move.init [false; true] (-1) 0 1 1) false)))).
      simpl. lia.
    + apply (proj2 (proj2 (proj2 (table_row_of_a_move
                (Move.init [false; true] 2 3 1 1) false)))).
      simpl. lia.
Defined.

(** X15: the Move of every step of a machine whose head is in range can
    be rendered with its pointer: [to_table_row] does not raise on it,
    the pointer characters stand on both sides of cell [from_square_i],
    the head position before the step, and without box-drawing
    characters the row has [2 * n + 1] characters for a snapshot of [n]
    symbols. *)
Theorem moves_of_steps_render (self self' : Machine.t) (move : Move.t)
    (is_fancy : bool) :
  head_in_range self = true ->
  next self = (Ok move, self') ->
  exists row,
    to_table_row move true is_fancy = Ok (String.concat "" row)
    /\ row = <[Z.to_nat (square_i self * 2 + 2) := pointer_right is_fancy]>
               (<[Z.to_nat (square_i self * 2) := pointer_left is_fancy]>
                  (row_cells is_fancy
                     (Tape.symbols (tape self') (heap_of self'))))
    /\ length row = (2 * length (Move.symbols move) + 1)%nat
    /\ (is_fancy = false ->
        String.length (String.concat "" row)
        = (2 * length (Move.symbols move) + 1)%nat).
Proof.
  intros Hh Hn.
  apply move_fields in Hn as Hm. destruct Hm as (Hsym & Hfrom & _).
  apply next_Ok_inv in Hn as (sq & b & _ & _ & _ & -> & _).
  pose proof (step_with_len sq b self) as Hlen.
  unfold head_in_range in Hh.
  assert (0 <= Move.from_square_i move
          < Z.of_nat (length (Move.symbols move))) as Hf.
  { rewrite Hfrom, Hsym. unfold Tape.symbols. rewrite length_map.
    unfold Tape.len in *. repeat case_match; lia. }
  eexists. split; [apply (to_table_row_inside _ _ Hf)|].
  rewrite Hfrom, Hsym.
  split; [done|]. split.
  - by rewrite !length_insert, row_cells_length.
  - intros ->. rewrite plain_row_length.
    + by rewrite !length_insert, row_cells_length.
    + apply Forall_insert; [|done]. apply Forall_insert; [|done].
      apply plain_cells.
Qed.

Lemma moves_of_steps_render_witness :
  let self := Machine.init [true; false] (Tape.mk [0; 1]%nat) adder_program in
  exists row,
    to_table_row (Move.init [false; false] 0 1 1 2) true false
    = Ok (String.concat "" row)
    /\ row = <[Z.to_nat (square_i self * 2 + 2) := pointer_right false]>
               (<[Z.to_nat (square_i self * 2) := pointer_left false]>
                  (row_cells false
                     (Tape.symbols (tape (snd (next self)))
                                   (heap_of (snd (next self))))))
    /\ length row
       = (2 * length (Move.symbols (Move.init [false; false] 0 1 1 2)) + 1)%nat
    /\ (false = false ->
        String.length (String.concat "" row)
        = (2 * length (Move.symbols (Move.init [false; false] 0 1 1 2)) + 1)%nat).
Proof.
  intros self.
  apply (moves_of_steps_render self (snd (next self))
           (Move.init [false; false] 0 1 1 2) false); reflexivity.
Defined.

Section Views.

(** The machine seen as its snapshot, head position and state index; the
    program is fixed and the cells hold distinct squares. *)
Lemma step_view (self : Machine.t) (st : State.t) (v : bool) :
  own_squares self = true ->
  0 <= square_i self ->
  state_i self <> 0 ->
  Program.getitem (program self) (state_i self) = Ok st ->
  Tape.symbols (tape self) (heap_of self) !! Z.to_nat (square_i self)
    = Some v ->
  let b := State.getitem st v in
  exists self',
    after 1 self = Some self'
    /\ own_squares self' = true
    /\ program self' = program self
    /\ Tape.symbols (tape self') (heap_of self')
       = written_and_fed (Tape.symbols (tape self) (heap_of self))
                         (square_i self) (Behavior.symbol b)
                         (Behavior.goes_right b)
    /\ square_i self'
       = (if Behavior.goes_right b then square_i self + 1
          else if square_i self =? 0 then 0 else square_i self - 1)
    /\ state_i self' = Behavior.state_i b.
Proof.
  intros Ho Hi Hs Hst Hv b.
  assert (head_in_range self = true) as Hh.
  { apply lookup_lt_Some in Hv. unfold Tape.symbols in Hv.
    rewrite length_map in Hv. unfold head_in_range, Tape.len.
    rewrite andb_true_iff, Z.leb_le, Z.ltb_lt. lia. }
  destruct (proj1 (next_returns_or_raises_aux self)) as [_ Hret].
  destruct Hret as (move & self' & Hn).
  { split; [done|]. unfold head_in_range in Hh.
    destruct (program_subscript_one_based_aux (program self) (state_i self))
      as [_ Hout].
    split; [lia|].
    destruct (decide (1 <= state_i self
                      <= Z.of_nat (length (Program.states (program self)))))
      as [|Hbad]; [done|].
    rewrite Hout in Hst by lia. discriminate Hst. }
  exists self'. rewrite after_S, Hn, after_O. split; [done|].
  destruct (move_symbols_of_a_step_aux _ _ _ Ho Hh Hn)
    as (st' & v' & Hst' & Hv' & _ & Hsym & Hsym').
  rewrite Hst in Hst'. injection Hst' as <-.
  rewrite Hv in Hv'. injection Hv' as <-.
  apply next_Ok_inv in Hn as (sq & b' & _ & _ & Hl & -> & _).
  assert (b' = b) as ->.
  { rewrite looked_up_eq in Hl.
    destruct (Tape.getitem (tape self) (square_i self)) as [sq'|] eqn:Hsq;
      [|done].
    rewrite Hst in Hl. injection Hl as <-. subst b. f_equal.
    unfold Tape.symbols in Hv. rewrite list_lookup_fmap in Hv.
    unfold Tape.getitem, list_getitem in Hsq.
    destruct (square_i self <? 0) eqn:E; [lia|].
    destruct (_ || _); [done|].
    destruct (Tape.squares (tape self) !! _) as [sq''|]; [|done].
    injection Hsq as ->. cbn in Hv. by injection Hv. }
  split; [by apply step_with_own_squares|].
  split; [apply step_with_program|].
  split; [by rewrite Hsym', Hsym|].
  split; [apply step_with_square_i|apply step_with_state_i].
Qed.

End Views.

Section Adder.

Ltac simpl_behavior H :=
  unfold B in H;
  cbn [State.getitem Bool.eqb State.when_true State.when_false
       Behavior.symbol Behavior.goes_right Behavior.state_i Nat.pred] in H.

Lemma after_trans (n k : nat) (self s1 s2 : Machine.t) :
  after n self = Some s1 -> after k s1 = Some s2 ->
  after (n + k) self = Some s2.
Proof. intros H1 H2. by rewrite after_add, H1. Qed.

Lemma at_step (p : Program.t) (self : Machine.t) (l : list bool) (k : nat)
    (s : Z) (st : State.t) (v : bool) :
  at_view p self l k s ->
  s <> 0 ->
  Program.getitem p s = Ok st ->
  l !! k = Some v ->
  let b := State.getitem st v in
  (if Behavior.goes_right b then (S k < length l)%nat else k <> 0%nat) ->
  exists self',
    after 1 self = Some self'
    /\ at_view p self' (<[k := Behavior.symbol b]> l)
               (if Behavior.goes_right b then S k else Nat.pred k)
               (Behavior.state_i b).
Proof.
  intros (Ho & Hp & Hl & Hk & Hs) Hs0 Hst Hv b Hfeed.
  subst p l s.
  destruct (step_view self st v Ho) as (self' & Ha & Ho' & Hp' & Hl' & Hk' & Hs');
    [lia|done|done|by rewrite Hk, Nat2Z.id|].
  fold b in Hl', Hk', Hs'. rewrite Hk in Hl', Hk'.
  exists self'. split; [done|].
  split; [done|]. split; [done|]. split; [|split; [|exact Hs']].
  - rewrite Hl'. unfold written_and_fed. rewrite Nat2Z.id.
    destruct (Behavior.goes_right b).
    + destruct (_ =? _) eqn:E; [lia|done].
    + destruct (_ =? 0) eqn:E; [lia|done].
  - rewrite Hk'. destruct (Behavior.goes_right b); [lia|].
    destruct (_ =? 0) eqn:E; lia.
Qed.

Lemma replicate_true_middle (a b : nat) :
  replicate a true ++ true :: replicate b true = replicate (a + S b) true.
Proof. by rewrite replicate_add. Qed.

(** The tape of the adder between its phases: [x^(a+1) o x^(b+1)] after
    the first mark is erased, and after the gap is filled. *)
Lemma adder_lookup_mark (a k : nat) (v : bool) (rest : list bool) :
  (k < a)%nat ->
  (false :: replicate a true ++ v :: rest) !! S k = Some true.
Proof.
  intros Hk. change ((replicate a true ++ v :: rest) !! k = Some true).
  rewrite lookup_app_l by (rewrite length_replicate; lia).
  by apply lookup_replicate_2.
Qed.

Lemma adder_insert_mark (a k : nat) (v : bool) (rest : list bool) :
  (k < a)%nat ->
  <[S k := true]> (false :: replicate a true ++ v :: rest)
  = false :: replicate a true ++ v :: rest.
Proof. intros Hk. apply list_insert_id. by apply adder_lookup_mark. Qed.

Lemma adder_fill_gap (a : nat) (rest : list bool) :
  <[S a := true]> (false :: replicate a true ++ false :: rest)
  = false :: replicate a true ++ true :: rest.
Proof.
  change (false :: <[a := true]> (replicate a true ++ false :: rest)
          = false :: replicate a true ++ true :: rest).
  f_equal. rewrite insert_app_r_alt by (rewrite length_replicate; lia).
  by rewrite length_replicate, Nat.sub_diag.
Qed.

Lemma adder_scan_right (a b j : nat) : forall (k : nat) (self : Machine.t),
  (k + j = a)%nat ->
  at_view adder_program self
    (false :: replicate a true ++ false :: replicate (S b) true) (S k) 2 ->
  exists self',
    after j self = Some self'
    /\ at_view adder_program self'
         (false :: replicate a true ++ false :: replicate (S b) true)
         (S a) 2.
Proof.
  induction j as [|j IH]; intros k self Hkj Hat.
  - replace a with k by lia. exists self. split; [done|].
    by replace k with a in Hat |- * by lia.
  - destruct (at_step _ _ _ _ _ (State.mk (B true false 3) (B true true 2))
                true Hat) as (self1 & Ha1 & Hat1);
      [done|done|apply adder_lookup_mark; lia| |].
    { cbn. rewrite length_app, length_replicate. cbn. lia. }
    simpl_behavior Hat1. rewrite adder_insert_mark in Hat1 by lia.
    destruct (IH (S k) self1 ltac:(lia) Hat1) as (self' & Ha & Hat').
    exists self'. split; [|done].
    by apply (after_trans 1 j self self1 self').
Qed.

Lemma adder_scan_left (a b k : nat) : forall (self : Machine.t),
  (k <= a)%nat ->
  at_view adder_program self
    (false :: replicate a true ++ true :: replicate (S b) true) k 3 ->
  exists self',
    after k self = Some self'
    /\ at_view adder_program self'
         (false :: replicate a true ++ true :: replicate (S b) true) 0 3.
Proof.
  induction k as [|k IH]; intros self Hk Hat.
  - by exists self.
  - destruct (at_step _ _ _ _ _ (State.mk (B false true 4) (B true false 3))
                true Hat) as (self1 & Ha1 & Hat1);
      [done|done|apply adder_lookup_mark; lia|done|].
    simpl_behavior Hat1. rewrite adder_insert_mark in Hat1 by lia.
    destruct (IH self1 ltac:(lia) Hat1) as (self' & Ha & Hat').
    exists self'. split; [|done].
    by apply (after_trans 1 k self self1 self').
Qed.

Lemma adder_run (a b : nat) (self : Machine.t) :
  at_view adder_program self
    (replicate (S a) true ++ false :: replicate (S b) true) 0 1 ->
  exists self',
    after (2 * a + 4) self = Some self'
    /\ at_view adder_program self'
         (false :: false :: replicate (a + b + 1) true) 2 0.
Proof.
  intros Hat.
  (* state 1 erases the first mark *)
  destruct (at_step _ _ _ _ _ (State.mk (B false true 0) (B false true 2))
              true Hat) as (s1 & Ha1 & Hat1); [done|done|done| |].
  { cbn. rewrite length_app, length_replicate. cbn. lia. }
  simpl_behavior Hat1.
  (* state 2 goes right over the first number *)
  destruct (adder_scan_right a b a 0 s1 ltac:(lia) Hat1)
    as (s2 & Ha2 & Hat2).
  (* and fills the gap *)
  destruct (at_step _ _ _ _ _ (State.mk (B true false 3) (B true true 2))
              false Hat2) as (s3 & Ha3 & Hat3); [done|done| |done|].
  { change ((replicate a true ++ false :: replicate (S b) true) !! a
            = Some false).
    apply list_lookup_middle. by rewrite length_replicate. }
  simpl_behavior Hat3. rewrite adder_fill_gap in Hat3.
  (* state 3 goes back to the left end *)
  destruct (adder_scan_left a b a s3 ltac:(lia) Hat3) as (s4 & Ha4 & Hat4).
  destruct (at_step _ _ _ _ _ (State.mk (B false true 4) (B true false 3))
              false Hat4) as (s5 & Ha5 & Hat5); [done|done|done| |].
  { cbn. rewrite length_app, length_replicate. cbn. lia. }
  simpl_behavior Hat5.
  (* state 4 erases one more mark and halts *)
  rewrite replicate_true_middle in Hat5.
  replace (a + S (S b))%nat with (S (a + b + 1)) in Hat5 by lia.
  destruct (at_step _ _ _ _ _ (State.mk (B false true 0) (B false true 0))
              true Hat5) as (s6 & Ha6 & Hat6); [done|done|done| |].
  { cbn. rewrite length_replicate. lia. }
  simpl_behavior Hat6.
  exists s6. split; [|done].
  replace (2 * a + 4)%nat with (1 + (a + (1 + (a + (1 + 1)))))%nat by lia.
  eapply after_trans; [done|]. eapply after_trans; [done|].
  eapply after_trans; [done|]. eapply after_trans; [done|].
  by eapply after_trans.
Qed.

End Adder.

Section AdderNumbers.

Lemma load_marks (l : list bool) (self : Machine.t) :
  exists loaded,
    Adder.load (marks l) self = (Ok tt, loaded)
    /\ at_view (program self) loaded l 0 1.
Proof.
  unfold Adder.load. unfold_methods. cbn.
  destruct (from_pattern_accepts_marks_only_aux (marks l) (heap_of self))
    as [Hok _].
  destruct (Hok (only_marks_marks l)) as [Hf Hs].
  rewrite symbols_of_marks in Hf, Hs.
  eexists. split.
  - destruct (configuration self); cbn; rewrite Hf; reflexivity.
  - unfold at_view; cbn. split; [|done].
    apply own_squares_spec; cbn. split; [apply NoDup_seq|].
    intros s Hin%elem_of_seq. rewrite marks_length in Hin.
    rewrite length_app. lia.
Qed.

Lemma string_app_nil_r (s : string) : s +:+ "" = s.
Proof.
  induction s as [|c s IH]; [done|].
  change (String c (s +:+ "") = String c s). by rewrite IH.
Qed.

Lemma string_app_nil_l (s : string) : "" +:+ s = s.
Proof. done. Qed.

Lemma string_app_snoc (s t : string) (c : Ascii.ascii) :
  (s +:+ String c EmptyString) +:+ t = s +:+ String c t.
Proof.
  induction s as [|c' s IH]; [done|].
  change (String c' ((s +:+ String c EmptyString) +:+ t)
          = String c' (s +:+ String c t)). by rewrite IH.
Qed.

Lemma marks_app (l1 l2 : list bool) : marks (l1 ++ l2) = marks l1 +:+ marks l2.
Proof.
  induction l1 as [|v l1 IH]; [done|].
  destruct (marks_cons v (l1 ++ l2)) as (c & Hc & H12).
  destruct (marks_cons v l1) as (c' & Hc' & H1).
  rewrite Hc in Hc'. injection Hc' as <-.
  change ((v :: l1) ++ l2) with (v :: (l1 ++ l2)).
  rewrite H12, H1, IH. done.
Qed.

(** Splitting at the blanks: a run of marks is read into the current
    piece, a blank closes it. *)
Lemma split_go_marks (n : nat) : forall (rest : list bool) (cur : string),
  str_split_go "o" (marks (replicate n true ++ rest)) cur
  = str_split_go "o" (marks rest) (cur +:+ marks (replicate n true)).
Proof.
  induction n as [|n IH]; intros rest cur.
  - cbn [replicate app]. by rewrite string_app_nil_r.
  - cbn [replicate app].
    destruct (marks_cons true (replicate n true ++ rest)) as (c & Hc & ->).
    destruct (marks_cons true (replicate n true)) as (c' & Hc' & ->).
    rewrite Hc in Hc'. injection Hc' as <-.
    cbn [str_split_go]. rewrite <- Hc.
    change (String.eqb (mark true) "o") with false.
    rewrite (IH rest (cur +:+ mark true)), Hc.
    by rewrite string_app_snoc.
Qed.

Lemma split_go_blank (rest : list bool) (cur : string) :
  str_split_go "o" (marks (false :: rest)) cur
  = cur :: str_split_go "o" (marks rest) "".
Proof.
  destruct (marks_cons false rest) as (c & Hc & ->).
  cbn [str_split_go]. by rewrite <- Hc.
Qed.

Lemma split_go_end (cur : string) : str_split_go "o" (marks []) cur = [cur].
Proof. done. Qed.

Lemma marks_replicate_length (n : nat) :
  String.length (marks (replicate n true)) = n.
Proof. by rewrite marks_length, length_replicate. Qed.

End AdderNumbers.

(** X16: the adder of examples.py adds. Whatever a machine running the
    adder program has done before, once [calculate] has rewound it and
    given it the tape of [a + 1] marks, a blank and [b + 1] marks, the run
    halts after exactly [2 * a + 4] Moves, as soon as more calls than that
    are followed, with the head on square 2 and the tape reading two
    blanks and [a + b + 1] marks; the tape has not grown. *)
Theorem adder_adds (a b fuel : nat) (self : Machine.t) :
  program self = adder_program ->
  (2 * a + 4 < fuel)%nat ->
  exists loaded moves halted,
    Adder.load (marks (replicate (S a) true ++ false :: replicate (S b) true))
               self = (Ok tt, loaded)
    /\ iterate fuel loaded = (moves, Exhausted, halted)
    /\ length moves = (2 * a + 4)%nat
    /\ Tape.symbols (tape halted) (heap_of halted)
       = false :: false :: replicate (a + b + 1) true
    /\ square_i halted = 2
    /\ state_i halted = 0
    /\ Tape.len (tape halted) = Tape.len (tape loaded).
Proof.
  intros Hp Hfuel.
  destruct (load_marks (replicate (S a) true ++ false :: replicate (S b) true)
              self) as (loaded & Hload & Hat).
  rewrite Hp in Hat.
  destruct (adder_run a b loaded Hat) as (halted & Ha & Hat').
  destruct Hat as (_ & _ & Hl & _). destruct Hat' as (_ & _ & Hl' & Hk & Hs).
  destruct (iterate_enough_fuel _ _ _ fuel Ha Hs Hfuel) as (moves & Hi & Hm).
  exists loaded, moves, halted. repeat (split; [done|]).
  apply (f_equal length) in Hl, Hl'. unfold Tape.symbols in Hl, Hl'.
  rewrite length_map in Hl, Hl'. unfold Tape.len. rewrite Hl, Hl'.
  cbn. rewrite length_app, !length_replicate. cbn. rewrite length_replicate.
  lia.
Qed.

Lemma adder_adds_witness :
  exists loaded moves halted,
    Adder.load (marks (replicate 2 true ++ false :: replicate 3 true))
               Adder.init = (Ok tt, loaded)
    /\ iterate 9 loaded = (moves, Exhausted, halted)
    /\ length moves = (2 * 1 + 4)%nat
    /\ Tape.symbols (tape halted) (heap_of halted)
       = false :: false :: replicate (1 + 2 + 1) true
    /\ square_i halted = 2
    /\ state_i halted = 0
    /\ Tape.len (tape halted) = Tape.len (tape loaded).
Proof.
  apply (adder_adds 1 2 9 Adder.init); [reflexivity|lia].
Defined.

(** X17: the header that [add_x] prints. For the tape of [a + 1] marks, a
    blank and [b + 1] marks it is the decimal numerals of [a] and [b]
    with a space between them; for the tape the adder leaves, two blanks
    and [a + b + 1] marks, it is the decimal numeral of [a + b]. *)
Theorem add_x_reads_the_numbers (a b : nat) (is_above : bool) :
  Adder.add_x (replicate (S a) true ++ false :: replicate (S b) true) is_above
  = pretty (Z.of_nat a) +:+ " " +:+ pretty (Z.of_nat b)
  /\ Adder.add_x (false :: false :: replicate (a + b + 1) true) is_above
     = pretty (Z.of_nat (a + b)).
Proof.
  unfold Adder.add_x, str_split. split.
  - rewrite split_go_marks, split_go_blank.
    rewrite <- (app_nil_r (replicate (S b) true)).
    rewrite split_go_marks, split_go_end, !string_app_nil_l.
    cbn [List.filter]. rewrite !marks_replicate_length.
    cbn [String.length Nat.add].
    rewrite !(proj2 (Z.ltb_lt 0 _)) by lia.
    cbn [map String.concat]. rewrite !marks_replicate_length.
    replace (Z.of_nat (S a) - 1) with (Z.of_nat a) by lia.
    by replace (Z.of_nat (S b) - 1) with (Z.of_nat b) by lia.
  - rewrite !split_go_blank.
    rewrite <- (app_nil_r (replicate (a + b + 1) true)).
    rewrite split_go_marks, split_go_end, !string_app_nil_l.
    cbn [List.filter String.length Z.of_nat Z.ltb Z.compare].
    rewrite !marks_replicate_length. cbn [Nat.add String.length].
    change (0 <? Z.of_nat 0) with false. cbv iota.
    rewrite (proj2 (Z.ltb_lt 0 (Z.of_nat (a + b + 1)))) by lia.
    cbn [map String.concat]. rewrite !marks_replicate_length.
    by replace (Z.of_nat (a + b + 1) - 1) with (Z.of_nat (a + b)) by lia.
Qed.

Section PatternTexts.

Import Patterns.

Variable int : string -> result Z.

Lemma string_app_assoc (s t u : string) : (s +:+ t) +:+ u = s +:+ (t +:+ u).
Proof.
  induction s as [|c s IH]; [done|].
  change (String c ((s +:+ t) +:+ u) = String c (s +:+ (t +:+ u))).
  by rewrite IH.
Qed.









Lemma comprehension_length {A B} (f : A -> outcome B) (l : list A) :
  forall ys, comprehension f l = Returns ys ->
  length ys = length l
  /\ forall k x, l !! k = Some x ->
                 exists y, ys !! k = Some y /\ f x = Returns y.
Proof.
  induction l as [|x l IH]; intros ys Hc; cbn in Hc.
  - by inversion Hc; subst.
  - destruct (f x) as [y|e] eqn:Hx; [|done].
    destruct (comprehension f l) as [ys'|e]; [|done].
    inversion Hc; subst. destruct (IH ys' eq_refl) as [Hl Hk].
    split; [cbn; by rewrite Hl|].
    intros [|k] x' Hx'; cbn in Hx'.
    + inversion Hx'; subst. by exists y.
    + by apply Hk.
Qed.

Lemma comprehension_first_raise {A B} (f : A -> outcome B) (l : list A)
    (k : nat) (x : A) (e : raised) :
  l !! k = Some x ->
  f x = Raises e ->
  (forall j x', (j < k)%nat -> l !! j = Some x' -> exists y, f x' = Returns y) ->
  comprehension f l = Raises e.
Proof.
  revert k. induction l as [|x0 l IH]; intros k Hk He Hbefore; [done|].
  destruct k as [|k]; cbn in Hk.
  - inversion Hk; subst. cbn. by rewrite He.
  - cbn. destruct (Hbefore 0%nat x0 ltac:(lia) eq_refl) as [y ->].
    rewrite (IH k Hk He); [done|].
    intros j x' Hj Hx'. apply (Hbefore (S j) x'); [lia|done].
Qed.

End PatternTexts.



(** X19: [Program.from_patterns] returns a Program exactly when every
    pattern is one [State.from_pattern] returns a State for. The Program
    then has one state per pattern, and its state [i], counted from 1, is
    the State of the pattern at list position [i - 1]. When some pattern
    raises, [Program.from_patterns] raises what the first such pattern
    raises. *)
Theorem program_of_patterns (int : string -> result Z)
    (patterns : list string) :
  (forall p,
     Patterns.Program_from_patterns int patterns = Patterns.Returns p ->
     length (Program.states p) = length patterns
     /\ forall i pattern,
          1 <= i ->
          patterns !! Z.to_nat (i - 1) = Some pattern ->
          exists st,
            Patterns.State_from_pattern int pattern = Patterns.Returns st
            /\ Program.getitem p i = Ok st)
  /\ (forall k pattern e,
        patterns !! k = Some pattern ->
        Patterns.State_from_pattern int pattern = Patterns.Raises e ->
        (forall j pattern',
           (j < k)%nat -> patterns !! j = Some pattern' ->
           exists st,
             Patterns.State_from_pattern int pattern' = Patterns.Returns st) ->
        Patterns.Program_from_patterns int patterns = Patterns.Raises e).
Proof.
  unfold Patterns.Program_from_patterns. split.
  - intros p Hp.
    destruct (Patterns.comprehension _ patterns) as [states|] eqn:Hc; [|done].
    inversion Hp; subst; clear Hp. cbn [Program.states].
    destruct (comprehension_length _ _ _ Hc) as [Hlen Hk].
    split; [done|]. intros i pattern Hi Hpat.
    destruct (Hk _ _ Hpat) as (st & Hst & Hf).
    exists st. split; [done|].
    unfold Program.getitem. destruct (i <? 1) eqn:E; [lia|].
    cbn [Program.states].
    destruct (list_getitem_inside states (i - 1)) as (st' & Hst' & ->).
    + apply lookup_lt_Some in Hst. lia.
    + congruence.
  - intros k pattern e Hk He Hbefore.
    by rewrite (comprehension_first_raise _ _ _ _ _ Hk He Hbefore).
Qed.

Lemma program_of_patterns_witness :
  (length (Program.states adder_program) = 4%nat
   /\ exists st,
        Patterns.State_from_pattern one_digit_int "oR4,xL3"
        = Patterns.Returns st
        /\ Program.getitem adder_program 3 = Ok st)
  /\ Patterns.Program_from_patterns one_digit_int ["oR0,oR2"; "xL3"; "zz"]
     = Patterns.Raises Patterns.TypeError.
Proof.
  split.
  - destruct (proj1 (program_of_patterns one_digit_int
                       ["oR0,oR2"; "xL3,xR2"; "oR4,xL3"; "oR0,oR0"])
                adder_program eq_refl) as [Hlen Hst].
    split; [exact Hlen|].
    apply (Hst 3 "oR4,xL3"); [lia|reflexivity].
  - apply (proj2 (program_of_patterns one_digit_int
                    ["oR0,oR2"; "xL3"; "zz"]) 1%nat "xL3");
      [reflexivity|reflexivity|].
    intros [|j] pattern' Hj Hp; [|lia].
    injection Hp as <-. by eexists.
Defined.
